(** * COLO checkpoint protocol (migration/colo.c): a shallow embedding

    The C functions of [migration/colo.c] are written as functions of a
    small state monad whose state is the chronological trace of the calls
    made to code outside the file (QEMUFile, QEMUSizedBuffer, savevm, VM
    run-state control, ram cache, error reporting).  Whatever such a call
    returns is chosen by an environment [Env], which may look at the whole
    history of calls: nothing is assumed about the transport or the other
    collaborators.  The [trace_colo_*] tracepoints have no effect on the
    protocol and are left out. *)

From Stdlib Require Import ZArith List Ascii String Bool Lia DecimalString.
Import ListNotations.
Local Open Scope Z_scope.

(** ** Data *)

(** Modelled from the spec: [enum COLOMessage] is generated from the QAPI
    schema and is not part of [migration/colo.c]; its seven ordinals, the
    bound [COLO_MESSAGE__MAX] and the name table [COLOMessage_lookup] are
    taken as a parameter.  A value of the enum type is the unsigned
    32-bit number that [qemu_get_be32] decoded, valid or not. *)
Record COLOMessageEnum : Type := {
  COLO_MESSAGE_CHECKPOINT_READY : Z;
  COLO_MESSAGE_CHECKPOINT_REQUEST : Z;
  COLO_MESSAGE_CHECKPOINT_REPLY : Z;
  COLO_MESSAGE_VMSTATE_SEND : Z;
  COLO_MESSAGE_VMSTATE_SIZE : Z;
  COLO_MESSAGE_VMSTATE_RECEIVED : Z;
  COLO_MESSAGE_VMSTATE_LOADED : Z;
  COLO_MESSAGE__MAX : Z;
  COLOMessage_lookup : Z -> string
}.

Definition COLOMessage : Type := Z.

Inductive MigrationStatus : Type :=
| MIGRATION_STATUS_ACTIVE
| MIGRATION_STATUS_COLO
| MIGRATION_STATUS_COMPLETED.

Inductive RunState : Type := RUN_STATE_COLO.

(** [COLO_BUFFER_BASE_SIZE] *)
Definition COLO_BUFFER_BASE_SIZE : Z := 4 * 1024 * 1024.

(** The one [QEMUSizedBuffer] of the file: the colo buffer made by
    [qsb_create] in [colo_process_checkpoint]. *)
Inductive QEMUSizedBuffer : Type := colo_buffer.

(** A [QEMUFile] is named by the way it came to be.  Pointers are options,
    [None] being [NULL]. *)
Inductive QEMUFile : Type :=
| outgoing_stream                       (* s->to_dst_file on entry    *)
| incoming_stream                       (* mis->from_src_file on entry *)
| return_path (f : QEMUFile)            (* qemu_file_get_return_path(f) *)
| buffer_file (b : QEMUSizedBuffer).    (* qemu_bufopen("w", b) *)

Record MigrationState : Type := mkMigrationState {
  to_dst_file : option QEMUFile;
  from_dst_file : option QEMUFile;      (* s->rp_state.from_dst_file *)
  params_blk : Z;
  params_shared : Z
}.

Record MigrationIncomingState : Type := mkMigrationIncomingState {
  from_src_file : option QEMUFile;
  to_src_file : option QEMUFile
}.

(** [Error] objects as [error_setg] and [error_setg_errno] build them: the
    format string and its arguments in the order of the call, and the OS
    error number if there is one. *)
Inductive FmtArg : Type :=
| ArgS (s : string)
| ArgD (d : Z).

Record Error : Type := mkError {
  err_errno : option Z;
  err_fmt : string;
  err_args : list FmtArg
}.

Definition error_setg (fmt : string) (args : list FmtArg) : Error :=
  mkError None fmt args.

Definition error_setg_errno (os_errno : Z) (fmt : string) (args : list FmtArg) : Error :=
  mkError (Some os_errno) fmt args.

(** The text of an error: the format string with each [%d] and [%s]
    replaced by the next argument, as [printf] reads them ([%d] reads the
    32-bit value as a signed [int]).  The [strerror] suffix that
    [error_setg_errno] appends is left out. *)
Definition print_d (d : Z) : string :=
  NilZero.string_of_int (Z.to_int (if d >=? 2 ^ 31 then d - 2 ^ 32 else d)).

Fixpoint format_message (fmt : string) (args : list FmtArg) : string :=
  match fmt with
  | EmptyString => EmptyString
  | String c rest =>
      match c, rest, args with
      | "%"%char, String "d"%char rest', ArgD d :: args' =>
          (print_d d ++ format_message rest' args')%string
      | "%"%char, String "s"%char rest', ArgS s :: args' =>
          (s ++ format_message rest' args')%string
      | _, _, _ => String c (format_message rest args)
      end
  end.

Definition error_message (e : Error) : string :=
  format_message (err_fmt e) (err_args e).

(** Modelled from the spec: the error kinds of the spec's command channel,
    which [migration/colo.c] does not name; an [Error] of this file is of
    the kind its constructor and format string show. *)
Inductive ChannelError : Type :=
| InvalidCommand
| TransportError
| ProtocolMismatch.

Definition channel_error (e : Error) : option ChannelError :=
  match err_errno e with
  | Some _ => Some TransportError
  | None =>
      if String.eqb (err_fmt e) "%s: Invalid cmd" then Some InvalidCommand
      else if String.eqb (err_fmt e) "Unexpected COLO command %d, expected %d"
      then Some ProtocolMismatch
      else if String.eqb (err_fmt e) "Got unknown COLO command: %d"
      then Some ProtocolMismatch
      else None
  end.

(** Calls that leave [migration/colo.c], with their arguments. *)
Inductive Event : Type :=
| ev_qemu_put_be32 (f : option QEMUFile) (v : Z)
| ev_qemu_put_be64 (f : option QEMUFile) (v : Z)
| ev_qemu_fflush (f : option QEMUFile)
| ev_qemu_file_get_error (f : option QEMUFile)
| ev_qemu_get_be32 (f : option QEMUFile)
| ev_qemu_fclose (f : option QEMUFile)
| ev_qemu_file_get_return_path (f : option QEMUFile)
| ev_qemu_file_set_blocking (f : option QEMUFile) (block : bool)
| ev_qemu_bufopen (mode : string) (b : option QEMUSizedBuffer)
| ev_qsb_create (size : Z)
| ev_qsb_set_length (b : option QEMUSizedBuffer) (len : Z)
| ev_qsb_get_length (b : option QEMUSizedBuffer)
| ev_qsb_put_buffer (f : option QEMUFile) (b : option QEMUSizedBuffer) (size : Z)
| ev_qsb_free (b : option QEMUSizedBuffer)
| ev_qemu_mutex_lock_iothread
| ev_qemu_mutex_unlock_iothread
| ev_vm_stop_force_state (st : RunState)
| ev_vm_start
| ev_qemu_savevm_state_header (f : option QEMUFile)
| ev_qemu_savevm_state_begin (f : option QEMUFile) (blk shared : Z)
| ev_qemu_savevm_state_complete_precopy (f : option QEMUFile) (iterable_only : bool)
| ev_migrate_set_state (old_state new_state : MigrationStatus)
| ev_colo_init_ram_cache
| ev_colo_release_ram_cache
| ev_migration_incoming_exit_colo
| ev_error_report (msg : string)
| ev_error_report_err (e : Error).

Definition Trace : Type := list Event.

(** What the collaborators answer, each as a function of the calls made so
    far.  [env_colo_rounds] stands for the status word [s->state] /
    [mis->state], which other threads write: it is the number of times the
    [while (... == MIGRATION_STATUS_COLO)] test of the phase finds the word
    still at COLO before it has moved on. *)
Record Env : Type := {
  env_get_be32 : Trace -> Z;
  env_file_error : Trace -> Z;
  env_return_path : Trace -> bool;
  env_bufopen : Trace -> bool;
  env_qsb_create : Trace -> bool;
  env_qsb_length : Trace -> Z;
  env_init_ram_cache : Trace -> Z;
  env_colo_rounds : nat
}.

(** ** The monad *)

Definition M (A : Type) : Type := Trace -> A * Trace.

Definition ret {A : Type} (a : A) : M A := fun h => (a, h).

Definition bind {A B : Type} (m : M A) (k : A -> M B) : M B :=
  fun h => let (a, h') := m h in k a h'.

Definition call (e : Event) : M unit := fun h => (tt, h ++ [e]).

Definition ask {A : Type} (answer : Trace -> A) (e : Event) : M A :=
  fun h => (answer h, h ++ [e]).

Declare Scope colo_scope.
Delimit Scope colo_scope with colo.
Notation "x <- m ;; k" := (bind m (fun x => k))
  (at level 61, m at next level, right associativity) : colo_scope.
Notation "' pat <- m ;; k" := (bind m (fun x => match x with pat => k end))
  (at level 61, pat pattern, m at next level, right associativity) : colo_scope.
Notation "m ;; k" := (bind m (fun _ => k))
  (at level 61, right associativity) : colo_scope.
Local Open Scope colo_scope.

(** The events a computation adds to the history [h]. *)
Definition emitted {A : Type} (m : M A) (h : Trace) : Trace :=
  skipn (List.length h) (snd (m h)).

Definition result {A : Type} (m : M A) (h : Trace) : A := fst (m h).

(** ** Concrete environments *)

(** Modelled from the spec: the ordinals of [enum COLOMessage], which the
    QAPI generator assigns and [migration/colo.c] only names, numbered in
    the order in which the spec lists the commands. *)
Definition spec_messages : COLOMessageEnum := {|
  COLO_MESSAGE_CHECKPOINT_REQUEST := 0;
  COLO_MESSAGE_CHECKPOINT_REPLY := 1;
  COLO_MESSAGE_CHECKPOINT_READY := 2;
  COLO_MESSAGE_VMSTATE_SEND := 3;
  COLO_MESSAGE_VMSTATE_SIZE := 4;
  COLO_MESSAGE_VMSTATE_RECEIVED := 5;
  COLO_MESSAGE_VMSTATE_LOADED := 6;
  COLO_MESSAGE__MAX := 7;
  COLOMessage_lookup := fun c =>
    match c with
    | 0 => "checkpoint-request" | 1 => "checkpoint-reply"
    | 2 => "checkpoint-ready" | 3 => "vmstate-send" | 4 => "vmstate-size"
    | 5 => "vmstate-received" | 6 => "vmstate-loaded" | _ => ""
    end%string
|}.

Definition is_get_be32 (e : Event) : bool :=
  match e with ev_qemu_get_be32 _ => true | _ => false end.

Definition is_file_get_error (e : Event) : bool :=
  match e with ev_qemu_file_get_error _ => true | _ => false end.

(** A scripted environment: the k-th [qemu_get_be32] of the run yields the
    k-th element of [reads], the k-th [qemu_file_get_error] the k-th
    element of [errors] (0 once a script is used up); the other
    collaborators answer the same way every time. *)
Definition scripted (reads errors : list Z) (return_path_ok bufopen_ok qsb_create_ok : bool)
    (size cache : Z) (rounds : nat) : Env := {|
  env_get_be32 := fun h => nth (List.length (filter is_get_be32 h)) reads 0;
  env_file_error := fun h => nth (List.length (filter is_file_get_error h)) errors 0;
  env_return_path := fun _ => return_path_ok;
  env_bufopen := fun _ => bufopen_ok;
  env_qsb_create := fun _ => qsb_create_ok;
  env_qsb_length := fun _ => size;
  env_init_ram_cache := fun _ => cache;
  env_colo_rounds := rounds
|}.

(** [*s] when [colo_process_checkpoint] is entered, and inside its loop. *)
Definition primary_entry_state : MigrationState :=
  mkMigrationState (Some outgoing_stream) None 1 1.

Definition primary_state : MigrationState :=
  mkMigrationState (Some outgoing_stream) (Some (return_path outgoing_stream)) 1 1.

(** [*mis] when [colo_process_incoming_thread] is entered, and inside its
    loop. *)
Definition secondary_entry_state : MigrationIncomingState :=
  mkMigrationIncomingState (Some incoming_stream) None.

Definition secondary_state : MigrationIncomingState :=
  mkMigrationIncomingState (Some incoming_stream) (Some (return_path incoming_stream)).

(** The secondary answers CHECKPOINT_REPLY, VMSTATE_RECEIVED and
    VMSTATE_LOADED, nothing fails, and the saved state is 1024 bytes. *)
Definition happy_env : Env :=
  scripted [1; 5; 6] [] true true true 1024 0 1.

(** The channel fails (error 5, EIO) when the primary sends VMSTATE_SEND,
    its third use of the channel. *)
Definition send_fails_env : Env :=
  scripted [1] [0; 0; -5] true true true 1024 0 1.

(** The channel fails when the primary sends CHECKPOINT_REQUEST. *)
Definition request_fails_env : Env :=
  scripted [] [-5] true true true 1024 0 1.

(** Everything is sent, and the return path fails (error 5, EIO) while the
    primary waits for VMSTATE_RECEIVED: the seventh check of a channel. *)
Definition ack_lost_env : Env :=
  scripted [1] [0; 0; 0; 0; 0; 0; -5] true true true 1024 0 1.

(** The same inside a phase of at most two transactions: the secondary is
    ready and answers CHECKPOINT_REPLY, and the return path fails at the
    eighth check of a channel, while the primary waits for
    VMSTATE_RECEIVED. *)
Definition ack_lost_phase_env : Env :=
  scripted [2; 1] [0; 0; 0; 0; 0; 0; 0; -5] true true true 1024 0 2.


(** The secondary answers VMSTATE_SEND where CHECKPOINT_REPLY is due. *)
Definition mismatch_env : Env :=
  scripted [3] [] true true true 1024 0 1.

(** [qemu_file_get_return_path] fails. *)
Definition no_return_path_env : Env :=
  scripted [] [] false true true 1024 0 3.

(** The secondary is ready, and the channel fails when the first
    CHECKPOINT_REQUEST of the phase is sent. *)
Definition first_request_fails_env : Env :=
  scripted [2] [0; -5] true true true 1024 0 3.

(** The primary sends CHECKPOINT_REQUEST and VMSTATE_SEND: one pass of the
    incoming loop. *)
Definition one_checkpoint_env : Env :=
  scripted [0; 3] [] true true true 1024 0 1.

(** The primary sends VMSTATE_SEND where CHECKPOINT_REQUEST is due. *)
Definition wrong_request_env : Env :=
  scripted [3] [] true true true 1024 0 1.

(** The return path fails (error 5, EIO) when the incoming thread sends
    CHECKPOINT_READY, its first use of a channel. *)
Definition ready_fails_env : Env :=
  scripted [] [-5] true true true 1024 0 1.

(** ** Observations on traces *)

Definition count (p : Event -> bool) (t : Trace) : nat := List.length (filter p t).

Definition is_vm_stop (e : Event) : bool :=
  match e with ev_vm_stop_force_state _ => true | _ => false end.
Definition is_vm_start (e : Event) : bool :=
  match e with ev_vm_start => true | _ => false end.
Definition is_bufopen (e : Event) : bool :=
  match e with ev_qemu_bufopen _ _ => true | _ => false end.
Definition is_fclose (e : Event) : bool :=
  match e with ev_qemu_fclose _ => true | _ => false end.
Definition is_fclose_buffer_file (e : Event) : bool :=
  match e with ev_qemu_fclose (Some (buffer_file _)) => true | _ => false end.
Definition is_fclose_return_path (e : Event) : bool :=
  match e with ev_qemu_fclose (Some (return_path _)) => true | _ => false end.
Definition is_get_return_path (e : Event) : bool :=
  match e with ev_qemu_file_get_return_path _ => true | _ => false end.
Definition is_qsb_create (e : Event) : bool :=
  match e with ev_qsb_create _ => true | _ => false end.
Definition is_qsb_free (e : Event) : bool :=
  match e with ev_qsb_free _ => true | _ => false end.
Definition is_qsb_set_length (e : Event) : bool :=
  match e with ev_qsb_set_length _ _ => true | _ => false end.
Definition is_release_ram_cache (e : Event) : bool :=
  match e with ev_colo_release_ram_cache => true | _ => false end.
Definition is_exit_colo (e : Event) : bool :=
  match e with ev_migration_incoming_exit_colo => true | _ => false end.
Definition is_error_report_err (e : Event) : bool :=
  match e with ev_error_report_err _ => true | _ => false end.
Definition is_report_or_close (e : Event) : bool :=
  match e with
  | ev_error_report_err _ | ev_error_report _ | ev_qemu_fclose _ => true
  | _ => false
  end.
Definition is_io (e : Event) : bool :=
  match e with
  | ev_qemu_put_be32 _ _ | ev_qemu_put_be64 _ _ | ev_qemu_fflush _
  | ev_qemu_get_be32 _ | ev_qsb_put_buffer _ _ _ => true
  | _ => false
  end.

(** Modelled from the spec: [vm_stop_force_state] and [vm_start] are the
    spec's [stop_guest] and [resume_guest]; the guest runs after a start
    and is stopped after a stop, and no other call changes that. *)
Definition guest_step (running : bool) (e : Event) : bool :=
  match e with
  | ev_vm_stop_force_state _ => false
  | ev_vm_start => true
  | _ => running
  end.

Definition guest_running (before : bool) (t : Trace) : bool :=
  fold_left guest_step t before.

Definition is_send (e : Event) : bool :=
  match e with
  | ev_qemu_put_be32 _ _ | ev_qemu_put_be64 _ _ | ev_qsb_put_buffer _ _ _ => true
  | _ => false
  end.
Definition is_put_be64 (e : Event) : bool :=
  match e with ev_qemu_put_be64 _ _ => true | _ => false end.
Definition is_report (e : Event) : bool :=
  match e with ev_error_report _ | ev_error_report_err _ => true | _ => false end.
Definition is_migrate_set_state (e : Event) : bool :=
  match e with ev_migrate_set_state _ _ => true | _ => false end.

(** The iothread lock along a trace, [held] telling whether the caller
    holds it at the start.  The result is [None] when the lock is taken
    while held or released while not held, when a [QEMUFile] is read,
    written or flushed while it is held, or when the guest is stopped or
    started, the device state saved or the ram cache released while it is
    not held; otherwise it tells whether the lock is held at the end. *)
Fixpoint lock_scan (held : bool) (t : Trace) : option bool :=
  match t with
  | [] => Some held
  | e :: t' =>
      match e with
      | ev_qemu_mutex_lock_iothread => if held then None else lock_scan true t'
      | ev_qemu_mutex_unlock_iothread => if held then lock_scan false t' else None
      | ev_vm_stop_force_state _ | ev_vm_start
      | ev_qemu_savevm_state_complete_precopy _ _
      | ev_colo_release_ram_cache => if held then lock_scan held t' else None
      | _ => if held && is_io e then None else lock_scan held t'
      end
  end.

(** The iothread lock along a trace of the primary side, [held] telling
    whether the caller holds it at the start.  The result is [None] when
    the lock is taken while held or released while not held, when
    [vm_stop_force_state], [vm_start] or
    [qemu_savevm_state_complete_precopy] is called while it is not held,
    or when any other call is made while it is held; otherwise it tells
    whether the lock is held at the end. *)
Fixpoint lock_strict (held : bool) (t : Trace) : option bool :=
  match t with
  | [] => Some held
  | e :: t' =>
      match e with
      | ev_qemu_mutex_lock_iothread => if held then None else lock_strict true t'
      | ev_qemu_mutex_unlock_iothread => if held then lock_strict false t' else None
      | ev_vm_stop_force_state _ | ev_vm_start
      | ev_qemu_savevm_state_complete_precopy _ _ =>
          if held then lock_strict held t' else None
      | _ => if held then None else lock_strict held t'
      end
  end.

Section Colo.

Context (cm : COLOMessageEnum) (E : Env).

(** ** Collaborators *)

Definition qemu_put_be32 (f : option QEMUFile) (v : Z) : M unit :=
  call (ev_qemu_put_be32 f v).
Definition qemu_put_be64 (f : option QEMUFile) (v : Z) : M unit :=
  call (ev_qemu_put_be64 f v).
Definition qemu_fflush (f : option QEMUFile) : M unit :=
  call (ev_qemu_fflush f).
Definition qemu_file_get_error (f : option QEMUFile) : M Z :=
  ask (env_file_error E) (ev_qemu_file_get_error f).
Definition qemu_get_be32 (f : option QEMUFile) : M Z :=
  ask (fun h => env_get_be32 E h mod 2 ^ 32) (ev_qemu_get_be32 f).
Definition qemu_fclose (f : option QEMUFile) : M unit :=
  call (ev_qemu_fclose f).
Definition qemu_file_get_return_path (f : option QEMUFile) : M (option QEMUFile) :=
  ask (fun h => match f with
                | Some f' => if env_return_path E h then Some (return_path f') else None
                | None => None
                end)
      (ev_qemu_file_get_return_path f).
Definition qemu_file_set_blocking (f : option QEMUFile) (block : bool) : M unit :=
  call (ev_qemu_file_set_blocking f block).
Definition qemu_bufopen (mode : string) (b : option QEMUSizedBuffer) : M (option QEMUFile) :=
  ask (fun h => match b with
                | Some b' => if env_bufopen E h then Some (buffer_file b') else None
                | None => None
                end)
      (ev_qemu_bufopen mode b).
Definition qsb_create (size : Z) : M (option QEMUSizedBuffer) :=
  ask (fun h => if env_qsb_create E h then Some colo_buffer else None)
      (ev_qsb_create size).
Definition qsb_set_length (b : option QEMUSizedBuffer) (len : Z) : M unit :=
  call (ev_qsb_set_length b len).
Definition qsb_get_length (b : option QEMUSizedBuffer) : M Z :=
  ask (env_qsb_length E) (ev_qsb_get_length b).
Definition qsb_put_buffer (f : option QEMUFile) (b : option QEMUSizedBuffer) (size : Z) : M unit :=
  call (ev_qsb_put_buffer f b size).
Definition qsb_free (b : option QEMUSizedBuffer) : M unit :=
  call (ev_qsb_free b).
Definition qemu_mutex_lock_iothread : M unit := call ev_qemu_mutex_lock_iothread.
Definition qemu_mutex_unlock_iothread : M unit := call ev_qemu_mutex_unlock_iothread.
Definition vm_stop_force_state (st : RunState) : M unit := call (ev_vm_stop_force_state st).
Definition vm_start : M unit := call ev_vm_start.
Definition qemu_savevm_state_header (f : option QEMUFile) : M unit :=
  call (ev_qemu_savevm_state_header f).
Definition qemu_savevm_state_begin (f : option QEMUFile) (blk shared : Z) : M unit :=
  call (ev_qemu_savevm_state_begin f blk shared).
Definition qemu_savevm_state_complete_precopy (f : option QEMUFile) (iterable_only : bool) : M unit :=
  call (ev_qemu_savevm_state_complete_precopy f iterable_only).
Definition migrate_set_state (old_state new_state : MigrationStatus) : M unit :=
  call (ev_migrate_set_state old_state new_state).
Definition colo_init_ram_cache : M Z :=
  ask (env_init_ram_cache E) ev_colo_init_ram_cache.
Definition colo_release_ram_cache : M unit := call ev_colo_release_ram_cache.
Definition migration_incoming_exit_colo : M unit := call ev_migration_incoming_exit_colo.
Definition error_report (msg : string) : M unit := call (ev_error_report msg).
Definition error_report_err (e : Error) : M unit := call (ev_error_report_err e).

(** ** migration/colo.c *)

(** [colo_put_cmd]; the result is what the call leaves in [*errp]. *)
Definition colo_put_cmd (f : option QEMUFile) (cmd : COLOMessage) : M (option Error) :=
  if cmd >=? COLO_MESSAGE__MAX cm then
    ret (Some (error_setg "%s: Invalid cmd" [ArgS "colo_put_cmd"]))
  else
    qemu_put_be32 f cmd ;;
    qemu_fflush f ;;
    r <- qemu_file_get_error f ;;
    if r <? 0 then
      ret (Some (error_setg_errno (- r) "Can't put COLO command" []))
    else
      ret None.

(** [colo_put_cmd_value] *)
Definition colo_put_cmd_value (f : option QEMUFile) (cmd : COLOMessage) (value : Z)
  : M (option Error) :=
  local_err <- colo_put_cmd f cmd ;;
  if local_err is Some _ then
    ret local_err                       (* error_propagate(errp, local_err) *)
  else
    qemu_put_be64 f value ;;
    qemu_fflush f ;;
    r <- qemu_file_get_error f ;;
    if r <? 0 then
      ret (Some (error_setg_errno (- r) "Failed to send value for command:%s"
                                  [ArgS (COLOMessage_lookup cm cmd)]))
    else
      ret None.

(** [colo_get_cmd]: the decoded value and what is left in [*errp]. *)
Definition colo_get_cmd (f : option QEMUFile) : M (COLOMessage * option Error) :=
  cmd <- qemu_get_be32 f ;;
  r <- qemu_file_get_error f ;;
  if r <? 0 then
    ret (cmd, Some (error_setg_errno (- r) "Can't get COLO command" []))
  else if cmd >=? COLO_MESSAGE__MAX cm then
    ret (cmd, Some (error_setg "%s: Invalid cmd" [ArgS "colo_get_cmd"]))
  else
    ret (cmd, None).

(** [colo_get_check_cmd] *)
Definition colo_get_check_cmd (f : option QEMUFile) (expect_cmd : COLOMessage)
  : M (option Error) :=
  '(cmd, local_err) <- colo_get_cmd f ;;
  if local_err is Some _ then
    ret local_err                       (* error_propagate(errp, local_err) *)
  else if negb (cmd =? expect_cmd) then
    ret (Some (error_setg "Unexpected COLO command %d, expected %d"
                          [ArgD expect_cmd; ArgD cmd]))
  else
    ret None.

(** The code at the label [out] of [colo_do_checkpoint_transaction], with
    the locals it reads. *)
Definition colo_do_checkpoint_transaction_out (s : MigrationState)
    (local_err : option Error) (trans : option QEMUFile) (ret_ : Z)
  : M (Z * MigrationState) :=
  (if local_err is Some e then error_report_err e else ret tt) ;;
  (if trans is Some _ then qemu_fclose trans else ret tt) ;;
  ret (ret_, s).

(** [colo_do_checkpoint_transaction]: the returned [int] and [*s] as the
    call leaves it.  Every [goto out] is a call of the code at [out] with
    the current values of the locals. *)
Definition colo_do_checkpoint_transaction (s : MigrationState)
    (buffer : option QEMUSizedBuffer) : M (Z * MigrationState) :=
  let out := colo_do_checkpoint_transaction_out in
  let trans : option QEMUFile := None in
  let ret_ : Z := -1 in
  local_err <- colo_put_cmd (to_dst_file s) (COLO_MESSAGE_CHECKPOINT_REQUEST cm) ;;
  if local_err is Some _ then out s local_err trans ret_ else
  local_err <- colo_get_check_cmd (from_dst_file s) (COLO_MESSAGE_CHECKPOINT_REPLY cm) ;;
  if local_err is Some _ then out s local_err trans ret_ else
  (* Reset colo buffer and open it for write *)
  qsb_set_length buffer 0 ;;
  trans <- qemu_bufopen "w" buffer ;;
  if trans is None then
    error_report "Open colo buffer for write failed" ;;
    out s local_err trans ret_
  else
  qemu_mutex_lock_iothread ;;
  vm_stop_force_state RUN_STATE_COLO ;;
  qemu_mutex_unlock_iothread ;;
  (* Disable block migration *)
  let s := mkMigrationState (to_dst_file s) (from_dst_file s) 0 (params_shared s) in
  let s := mkMigrationState (to_dst_file s) (from_dst_file s) (params_blk s) 0 in
  qemu_savevm_state_header trans ;;
  qemu_savevm_state_begin trans (params_blk s) (params_shared s) ;;
  qemu_mutex_lock_iothread ;;
  qemu_savevm_state_complete_precopy trans false ;;
  qemu_mutex_unlock_iothread ;;
  qemu_fflush trans ;;
  local_err <- colo_put_cmd (to_dst_file s) (COLO_MESSAGE_VMSTATE_SEND cm) ;;
  if local_err is Some _ then out s local_err trans ret_ else
  (* we send the total size of the vmstate first *)
  size <- qsb_get_length buffer ;;
  local_err <- colo_put_cmd_value (to_dst_file s) (COLO_MESSAGE_VMSTATE_SIZE cm) size ;;
  if local_err is Some _ then out s local_err trans ret_ else
  qsb_put_buffer (to_dst_file s) buffer size ;;
  qemu_fflush (to_dst_file s) ;;
  ret_ <- qemu_file_get_error (to_dst_file s) ;;
  if ret_ <? 0 then out s local_err trans ret_ else
  local_err <- colo_get_check_cmd (from_dst_file s) (COLO_MESSAGE_VMSTATE_RECEIVED cm) ;;
  if local_err is Some _ then out s local_err trans ret_ else
  local_err <- colo_get_check_cmd (from_dst_file s) (COLO_MESSAGE_VMSTATE_LOADED cm) ;;
  if local_err is Some _ then out s local_err trans ret_ else
  let ret_ : Z := 0 in
  (* Resume primary guest *)
  qemu_mutex_lock_iothread ;;
  vm_start ;;
  qemu_mutex_unlock_iothread ;;
  out s local_err trans ret_.

(** The [while (s->state == MIGRATION_STATUS_COLO)] loop of
    [colo_process_checkpoint]; [rounds] is the number of times the test
    still holds.  The result is [*s] when the loop is left, by the test or
    by [goto out]. *)
Fixpoint colo_process_checkpoint_loop (rounds : nat) (s : MigrationState)
    (buffer : option QEMUSizedBuffer) : M MigrationState :=
  match rounds with
  | O => ret s
  | S rounds' =>
      (* start a colo checkpoint *)
      '(ret_, s) <- colo_do_checkpoint_transaction s buffer ;;
      if ret_ <? 0 then ret s
      else colo_process_checkpoint_loop rounds' s buffer
  end.

(** The code at the label [out] of [colo_process_checkpoint]. *)
Definition colo_process_checkpoint_out (s : MigrationState)
    (local_err : option Error) (buffer : option QEMUSizedBuffer)
  : M MigrationState :=
  (* Throw the unreported error message after exited from loop *)
  (if local_err is Some e then error_report_err e else ret tt) ;;
  migrate_set_state MIGRATION_STATUS_COLO MIGRATION_STATUS_COMPLETED ;;
  qsb_free buffer ;;
  (if from_dst_file s is Some _ then qemu_fclose (from_dst_file s) else ret tt) ;;
  ret s.

(** [colo_process_checkpoint] *)
Definition colo_process_checkpoint (s : MigrationState) : M MigrationState :=
  let out := colo_process_checkpoint_out in
  let buffer : option QEMUSizedBuffer := None in
  let local_err : option Error := None in
  rp <- qemu_file_get_return_path (to_dst_file s) ;;
  let s := mkMigrationState (to_dst_file s) rp (params_blk s) (params_shared s) in
  if from_dst_file s is None then
    error_report "Open QEMUFile from_dst_file failed" ;;
    out s local_err buffer
  else
  (* Wait for Secondary finish loading vm states and enter COLO restore. *)
  local_err <- colo_get_check_cmd (from_dst_file s) (COLO_MESSAGE_CHECKPOINT_READY cm) ;;
  if local_err is Some _ then out s local_err buffer else
  buffer <- qsb_create COLO_BUFFER_BASE_SIZE ;;
  if buffer is None then
    error_report "Failed to allocate colo buffer!" ;;
    out s local_err buffer
  else
  qemu_mutex_lock_iothread ;;
  vm_start ;;
  qemu_mutex_unlock_iothread ;;
  s <- colo_process_checkpoint_loop (env_colo_rounds E) s buffer ;;
  out s local_err buffer.

(** [migrate_start_colo_process] *)
Definition migrate_start_colo_process (s : MigrationState) : M MigrationState :=
  qemu_mutex_unlock_iothread ;;
  migrate_set_state MIGRATION_STATUS_ACTIVE MIGRATION_STATUS_COLO ;;
  s <- colo_process_checkpoint s ;;
  qemu_mutex_lock_iothread ;;
  ret s.

(** [colo_wait_handle_cmd]: what the call stores in [*checkpoint_request]
    ([None] when it stores nothing) and what it leaves in [*errp]. *)
Definition colo_wait_handle_cmd (f : option QEMUFile) : M (option Z * option Error) :=
  '(cmd, local_err) <- colo_get_cmd f ;;
  if local_err is Some _ then
    ret (None, local_err)               (* error_propagate(errp, local_err) *)
  else if cmd =? COLO_MESSAGE_CHECKPOINT_REQUEST cm then
    ret (Some 1, None)
  else
    ret (Some 0, Some (error_setg "Got unknown COLO command: %d" [ArgD cmd])).

(** How the loop of [colo_process_incoming_thread] is left: by [goto out]
    or the end of the loop, with the value of [local_err], or by a failed
    [assert], which aborts the process. *)
Inductive LoopExit : Type :=
| exit_out (local_err : option Error)
| exit_assert_failed.

(** One pass through the body of the [while] loop of
    [colo_process_incoming_thread]: [None] when the end of the body is
    reached and the test is evaluated again. *)
Definition colo_process_incoming_loop_body (mis : MigrationIncomingState)
  : M (option LoopExit) :=
  '(request, local_err) <- colo_wait_handle_cmd (from_src_file mis) ;;
  if local_err is Some _ then ret (Some (exit_out local_err)) else
  (* assert(request); [request] is only read when it has been written *)
  if (match request with Some r => r =? 0 | None => true end)
  then ret (Some exit_assert_failed) else
  (* FIXME: This is unnecessary for periodic checkpoint mode *)
  local_err <- colo_put_cmd (to_src_file mis) (COLO_MESSAGE_CHECKPOINT_REPLY cm) ;;
  if local_err is Some _ then ret (Some (exit_out local_err)) else
  local_err <- colo_get_check_cmd (from_src_file mis) (COLO_MESSAGE_VMSTATE_SEND cm) ;;
  if local_err is Some _ then ret (Some (exit_out local_err)) else
  (* TODO: read migration data into colo buffer *)
  local_err <- colo_put_cmd (to_src_file mis) (COLO_MESSAGE_VMSTATE_RECEIVED cm) ;;
  if local_err is Some _ then ret (Some (exit_out local_err)) else
  (* TODO: load vm state *)
  local_err <- colo_put_cmd (to_src_file mis) (COLO_MESSAGE_VMSTATE_LOADED cm) ;;
  if local_err is Some _ then ret (Some (exit_out local_err)) else
  ret None.

(** The [while (mis->state == MIGRATION_STATUS_COLO)] loop. *)
Fixpoint colo_process_incoming_loop (rounds : nat) (mis : MigrationIncomingState)
  : M LoopExit :=
  match rounds with
  | O => ret (exit_out None)
  | S rounds' =>
      x <- colo_process_incoming_loop_body mis ;;
      match x with
      | Some e => ret e
      | None => colo_process_incoming_loop rounds' mis
      end
  end.

(** The code at the label [out] of [colo_process_incoming_thread]. *)
Definition colo_process_incoming_thread_out (mis : MigrationIncomingState)
    (local_err : option Error) : M unit :=
  (* Throw the unreported error message after exited from loop *)
  (if local_err is Some e then error_report_err e else ret tt) ;;
  qemu_mutex_lock_iothread ;;
  colo_release_ram_cache ;;
  qemu_mutex_unlock_iothread ;;
  (if to_src_file mis is Some _ then qemu_fclose (to_src_file mis) else ret tt) ;;
  migration_incoming_exit_colo.

(** How a run of the thread function ends. *)
Inductive ThreadEnd : Type :=
| thread_returned (mis : MigrationIncomingState)
| thread_aborted.

(** [colo_process_incoming_thread] *)
Definition colo_process_incoming_thread (mis : MigrationIncomingState) : M ThreadEnd :=
  let out mis local_err :=
    colo_process_incoming_thread_out mis local_err ;; ret (thread_returned mis) in
  let local_err : option Error := None in
  migrate_set_state MIGRATION_STATUS_ACTIVE MIGRATION_STATUS_COLO ;;
  rp <- qemu_file_get_return_path (from_src_file mis) ;;
  let mis := mkMigrationIncomingState (from_src_file mis) rp in
  if to_src_file mis is None then
    error_report "colo incoming thread: Open QEMUFile to_src_file failed" ;;
    out mis local_err
  else
  qemu_file_set_blocking (from_src_file mis) true ;;
  ret_ <- colo_init_ram_cache ;;
  if ret_ <? 0 then
    error_report "Failed to initialize ram cache" ;;
    out mis local_err
  else
  local_err <- colo_put_cmd (to_src_file mis) (COLO_MESSAGE_CHECKPOINT_READY cm) ;;
  if local_err is Some _ then out mis local_err else
  x <- colo_process_incoming_loop (env_colo_rounds E) mis ;;
  match x with
  | exit_out local_err => out mis local_err
  | exit_assert_failed => ret thread_aborted
  end.

(** ** Call sequences

    The calls of one complete pass, grouped by the steps of the checkpoint
    transaction. *)

Definition put_cmd_events (f : option QEMUFile) (cmd : COLOMessage) : Trace :=
  [ev_qemu_put_be32 f cmd; ev_qemu_fflush f; ev_qemu_file_get_error f].

Definition get_cmd_events (f : option QEMUFile) : Trace :=
  [ev_qemu_get_be32 f; ev_qemu_file_get_error f].

(** The value [qemu_get_be32] decodes at history [h]. *)
Definition decoded (h : Trace) : COLOMessage := env_get_be32 E h mod 2 ^ 32.

Definition step_request (s : MigrationState) : Trace :=
  put_cmd_events (to_dst_file s) (COLO_MESSAGE_CHECKPOINT_REQUEST cm).

Definition step_reply (s : MigrationState) : Trace :=
  get_cmd_events (from_dst_file s).

Definition step_open (buffer : option QEMUSizedBuffer) : Trace :=
  [ev_qsb_set_length buffer 0; ev_qemu_bufopen "w" buffer].

Definition step_stop : Trace :=
  [ev_qemu_mutex_lock_iothread; ev_vm_stop_force_state RUN_STATE_COLO;
   ev_qemu_mutex_unlock_iothread].

Definition step_save (trans : option QEMUFile) : Trace :=
  [ev_qemu_savevm_state_header trans; ev_qemu_savevm_state_begin trans 0 0;
   ev_qemu_mutex_lock_iothread;
   ev_qemu_savevm_state_complete_precopy trans false;
   ev_qemu_mutex_unlock_iothread; ev_qemu_fflush trans].

Definition step_send (s : MigrationState) (buffer : option QEMUSizedBuffer)
    (size : Z) : Trace :=
  put_cmd_events (to_dst_file s) (COLO_MESSAGE_VMSTATE_SEND cm)
  ++ [ev_qsb_get_length buffer]
  ++ put_cmd_events (to_dst_file s) (COLO_MESSAGE_VMSTATE_SIZE cm)
  ++ [ev_qemu_put_be64 (to_dst_file s) size; ev_qemu_fflush (to_dst_file s);
      ev_qemu_file_get_error (to_dst_file s)]
  ++ [ev_qsb_put_buffer (to_dst_file s) buffer size; ev_qemu_fflush (to_dst_file s);
      ev_qemu_file_get_error (to_dst_file s)].

Definition step_received (s : MigrationState) : Trace :=
  get_cmd_events (from_dst_file s).

Definition step_loaded (s : MigrationState) : Trace :=
  get_cmd_events (from_dst_file s).

Definition step_resume : Trace :=
  [ev_qemu_mutex_lock_iothread; ev_vm_start; ev_qemu_mutex_unlock_iothread].

(** All 36 calls of a transaction in which nothing fails, [size] being
    what [qsb_get_length] answered. *)
Definition transaction_steps (s : MigrationState) (buffer : option QEMUSizedBuffer)
    (size : Z) : Trace :=
  step_request s ++ step_reply s ++ step_open buffer ++ step_stop
  ++ step_save (option_map buffer_file buffer)
  ++ step_send s buffer size
  ++ step_received s ++ step_loaded s ++ step_resume.

(** What [qsb_get_length] answers in the transaction started at [h]: it is
    the 20th call, and the 19 before it do not depend on the size. *)
Definition transaction_size (s : MigrationState) (buffer : option QEMUSizedBuffer)
    (h : Trace) : Z :=
  env_qsb_length E (h ++ firstn 19 (transaction_steps s buffer 0)).

(** [*s] after the transaction has switched block migration off. *)
Definition block_migration_disabled (s : MigrationState) : MigrationState :=
  mkMigrationState (to_dst_file s) (from_dst_file s) 0 0.

(** The calls of one complete pass through the loop body of the incoming
    thread. *)
Definition responder_steps (mis : MigrationIncomingState) : Trace :=
  get_cmd_events (from_src_file mis)
  ++ put_cmd_events (to_src_file mis) (COLO_MESSAGE_CHECKPOINT_REPLY cm)
  ++ get_cmd_events (from_src_file mis)
  ++ put_cmd_events (to_src_file mis) (COLO_MESSAGE_VMSTATE_RECEIVED cm)
  ++ put_cmd_events (to_src_file mis) (COLO_MESSAGE_VMSTATE_LOADED cm).

(** [*mis] once [colo_process_incoming_thread] has stored the result of
    [qemu_file_get_return_path] in it. *)
Definition with_return_path (mis : MigrationIncomingState) (rp : option QEMUFile)
  : MigrationIncomingState :=
  mkMigrationIncomingState (from_src_file mis) rp.

(** The calls of the incoming thread before its loop, when none fails. *)
Definition responder_prologue (mis : MigrationIncomingState) : Trace :=
  [ev_migrate_set_state MIGRATION_STATUS_ACTIVE MIGRATION_STATUS_COLO;
   ev_qemu_file_get_return_path (from_src_file mis);
   ev_qemu_file_set_blocking (from_src_file mis) true;
   ev_colo_init_ram_cache]
  ++ put_cmd_events (option_map return_path (from_src_file mis))
                    (COLO_MESSAGE_CHECKPOINT_READY cm).

(** The calls at the label [out] of the incoming thread, after the report
    of a pending error. *)
Definition responder_teardown (mis : MigrationIncomingState) : Trace :=
  [ev_qemu_mutex_lock_iothread; ev_colo_release_ram_cache;
   ev_qemu_mutex_unlock_iothread]
  ++ (if to_src_file mis is Some _ then [ev_qemu_fclose (to_src_file mis)] else [])
  ++ [ev_migration_incoming_exit_colo].

(** ** Outcomes of the command functions *)

Inductive put_cmd_outcome (f : option QEMUFile) (cmd : COLOMessage) (h : Trace)
  : option Error * Trace -> Prop :=
| put_cmd_invalid :
    COLO_MESSAGE__MAX cm <= cmd ->
    put_cmd_outcome f cmd h
      (Some (error_setg "%s: Invalid cmd" [ArgS "colo_put_cmd"]), h)
| put_cmd_io_error r :
    cmd < COLO_MESSAGE__MAX cm ->
    r = env_file_error E (h ++ [ev_qemu_put_be32 f cmd; ev_qemu_fflush f]) ->
    r < 0 ->
    put_cmd_outcome f cmd h
      (Some (error_setg_errno (- r) "Can't put COLO command" []),
       h ++ put_cmd_events f cmd)
| put_cmd_ok :
    cmd < COLO_MESSAGE__MAX cm ->
    0 <= env_file_error E (h ++ [ev_qemu_put_be32 f cmd; ev_qemu_fflush f]) ->
    put_cmd_outcome f cmd h (None, h ++ put_cmd_events f cmd).

Definition put_value_events (f : option QEMUFile) (value : Z) : Trace :=
  [ev_qemu_put_be64 f value; ev_qemu_fflush f; ev_qemu_file_get_error f].

Inductive put_cmd_value_outcome (f : option QEMUFile) (cmd : COLOMessage)
    (value : Z) (h : Trace) : option Error * Trace -> Prop :=
| put_value_cmd_invalid e :
    COLO_MESSAGE__MAX cm <= cmd ->
    put_cmd_value_outcome f cmd value h (Some e, h)
| put_value_cmd_io_error e :
    put_cmd_value_outcome f cmd value h (Some e, h ++ put_cmd_events f cmd)
| put_value_io_error e :
    put_cmd_value_outcome f cmd value h
      (Some e, h ++ put_cmd_events f cmd ++ put_value_events f value)
| put_value_ok :
    put_cmd_value_outcome f cmd value h
      (None, h ++ put_cmd_events f cmd ++ put_value_events f value).

Inductive get_cmd_outcome (f : option QEMUFile) (h : Trace)
  : COLOMessage * option Error * Trace -> Prop :=
| get_cmd_io_error r :
    r = env_file_error E (h ++ [ev_qemu_get_be32 f]) ->
    r < 0 ->
    get_cmd_outcome f h
      (decoded h, Some (error_setg_errno (- r) "Can't get COLO command" []),
       h ++ get_cmd_events f)
| get_cmd_invalid :
    0 <= env_file_error E (h ++ [ev_qemu_get_be32 f]) ->
    COLO_MESSAGE__MAX cm <= decoded h ->
    get_cmd_outcome f h
      (decoded h, Some (error_setg "%s: Invalid cmd" [ArgS "colo_get_cmd"]),
       h ++ get_cmd_events f)
| get_cmd_ok :
    0 <= env_file_error E (h ++ [ev_qemu_get_be32 f]) ->
    decoded h < COLO_MESSAGE__MAX cm ->
    get_cmd_outcome f h (decoded h, None, h ++ get_cmd_events f).

Inductive get_check_cmd_outcome (f : option QEMUFile) (expect_cmd : COLOMessage)
    (h : Trace) : option Error * Trace -> Prop :=
| get_check_propagated e :
    colo_get_cmd f h = (decoded h, Some e, h ++ get_cmd_events f) ->
    get_check_cmd_outcome f expect_cmd h (Some e, h ++ get_cmd_events f)
| get_check_mismatch :
    colo_get_cmd f h = (decoded h, None, h ++ get_cmd_events f) ->
    decoded h <> expect_cmd ->
    get_check_cmd_outcome f expect_cmd h
      (Some (error_setg "Unexpected COLO command %d, expected %d"
                        [ArgD expect_cmd; ArgD (decoded h)]),
       h ++ get_cmd_events f)
| get_check_ok :
    colo_get_cmd f h = (decoded h, None, h ++ get_cmd_events f) ->
    decoded h = expect_cmd ->
    get_check_cmd_outcome f expect_cmd h (None, h ++ get_cmd_events f).

(** ** Outcomes of the checkpoint transaction

    A run started at history [h] makes the first [n] calls of
    [transaction_steps] and then the calls at [out]; [n] says where it
    stopped. *)
Inductive transaction_outcome (s : MigrationState) (buffer : option QEMUSizedBuffer)
    (h : Trace) : Z * MigrationState * Trace -> Prop :=
| tx_failed_before_open n e :
    In n [0; 3; 5]%nat ->
    transaction_outcome s buffer h
      (-1, s,
       h ++ firstn n (transaction_steps s buffer (transaction_size s buffer h))
         ++ [ev_error_report_err e])
| tx_open_failed :
    fst (qemu_bufopen "w" buffer (h ++ firstn 6 (transaction_steps s buffer 0))) = None ->
    decoded (h ++ firstn 3 (transaction_steps s buffer 0))
      = COLO_MESSAGE_CHECKPOINT_REPLY cm ->
    transaction_outcome s buffer h
      (-1, s,
       h ++ firstn 7 (transaction_steps s buffer (transaction_size s buffer h))
         ++ [ev_error_report "Open colo buffer for write failed"])
| tx_send_failed n e trans :
    In n [16; 19; 20; 23; 26]%nat ->
    fst (qemu_bufopen "w" buffer (h ++ firstn 6 (transaction_steps s buffer 0))) = Some trans ->
    decoded (h ++ firstn 3 (transaction_steps s buffer 0))
      = COLO_MESSAGE_CHECKPOINT_REPLY cm ->
    transaction_outcome s buffer h
      (-1, block_migration_disabled s,
       h ++ firstn n (transaction_steps s buffer (transaction_size s buffer h))
         ++ [ev_error_report_err e; ev_qemu_fclose (Some trans)])
| tx_payload_failed r trans :
    r < 0 ->
    fst (qemu_bufopen "w" buffer (h ++ firstn 6 (transaction_steps s buffer 0))) = Some trans ->
    decoded (h ++ firstn 3 (transaction_steps s buffer 0))
      = COLO_MESSAGE_CHECKPOINT_REPLY cm ->
    transaction_outcome s buffer h
      (r, block_migration_disabled s,
       h ++ firstn 29 (transaction_steps s buffer (transaction_size s buffer h))
         ++ [ev_qemu_fclose (Some trans)])
| tx_ack_failed n r e trans :
    In n [31; 33]%nat ->
    0 <= r ->
    fst (qemu_bufopen "w" buffer (h ++ firstn 6 (transaction_steps s buffer 0))) = Some trans ->
    decoded (h ++ firstn 3 (transaction_steps s buffer 0))
      = COLO_MESSAGE_CHECKPOINT_REPLY cm ->
    transaction_outcome s buffer h
      (r, block_migration_disabled s,
       h ++ firstn n (transaction_steps s buffer (transaction_size s buffer h))
         ++ [ev_error_report_err e; ev_qemu_fclose (Some trans)])
| tx_done trans :
    fst (qemu_bufopen "w" buffer (h ++ firstn 6 (transaction_steps s buffer 0))) = Some trans ->
    decoded (h ++ firstn 3 (transaction_steps s buffer 0))
      = COLO_MESSAGE_CHECKPOINT_REPLY cm ->
    decoded (h ++ firstn 29 (transaction_steps s buffer (transaction_size s buffer h)))
      = COLO_MESSAGE_VMSTATE_RECEIVED cm ->
    decoded (h ++ firstn 31 (transaction_steps s buffer (transaction_size s buffer h)))
      = COLO_MESSAGE_VMSTATE_LOADED cm ->
    transaction_outcome s buffer h
      (0, block_migration_disabled s,
       h ++ transaction_steps s buffer (transaction_size s buffer h)
         ++ [ev_qemu_fclose (Some trans)]).

(** ** Outcomes of the primary phase *)

(** What every run of the transaction on [buffer] leaves in the trace: a
    prefix of [transaction_steps] and then reports and the close of the
    buffer file only; no call that creates or frees the buffer or opens or
    closes the return path; and, if the buffer is opened at all, one open,
    directly after the truncation to length 0. *)
Definition transaction_trace (buffer : option QEMUSizedBuffer) (t : Trace) : Prop :=
  (exists s size n out,
      t = firstn n (transaction_steps s buffer size) ++ out /\
      forallb is_report_or_close out = true)
  /\ count is_qsb_create t = 0%nat
  /\ count is_qsb_free t = 0%nat
  /\ count is_get_return_path t = 0%nat
  /\ count is_fclose_return_path t = 0%nat
  /\ (count is_bufopen t = 0%nat /\ count is_qsb_set_length t = 0%nat
      \/ exists pre post,
           t = pre ++ [ev_qsb_set_length buffer 0; ev_qemu_bufopen "w" buffer] ++ post /\
           count is_bufopen (pre ++ post) = 0%nat /\
           count is_qsb_set_length (pre ++ post) = 0%nat).

(** The calls of [colo_process_checkpoint] before its loop, when none
    fails. *)
Definition phase_setup (s : MigrationState) : Trace :=
  [ev_qemu_file_get_return_path (to_dst_file s)]
  ++ get_cmd_events (option_map return_path (to_dst_file s))
  ++ [ev_qsb_create COLO_BUFFER_BASE_SIZE;
      ev_qemu_mutex_lock_iothread; ev_vm_start; ev_qemu_mutex_unlock_iothread].

(** The calls at the label [out] of [colo_process_checkpoint], after the
    report of a pending error. *)
Definition phase_teardown (buffer : option QEMUSizedBuffer) (rp : option QEMUFile)
  : Trace :=
  [ev_migrate_set_state MIGRATION_STATUS_COLO MIGRATION_STATUS_COMPLETED;
   ev_qsb_free buffer]
  ++ (if rp is Some _ then [ev_qemu_fclose rp] else []).

Inductive phase_outcome (s : MigrationState) (h : Trace) : Trace -> Prop :=
| phase_no_return_path :
    fst (qemu_file_get_return_path (to_dst_file s) h) = None ->
    phase_outcome s h
      (h ++ firstn 1 (phase_setup s)
         ++ [ev_error_report "Open QEMUFile from_dst_file failed"]
         ++ phase_teardown None None)
| phase_not_ready rp e :
    fst (qemu_file_get_return_path (to_dst_file s) h) = Some rp ->
    phase_outcome s h
      (h ++ firstn 3 (phase_setup s)
         ++ [ev_error_report_err e]
         ++ phase_teardown None (Some rp))
| phase_no_buffer rp :
    fst (qemu_file_get_return_path (to_dst_file s) h) = Some rp ->
    fst (qsb_create COLO_BUFFER_BASE_SIZE (h ++ firstn 3 (phase_setup s))) = None ->
    phase_outcome s h
      (h ++ firstn 4 (phase_setup s)
         ++ [ev_error_report "Failed to allocate colo buffer!"]
         ++ phase_teardown None (Some rp))
| phase_ran rp buffer txs :
    fst (qemu_file_get_return_path (to_dst_file s) h) = Some rp ->
    fst (qsb_create COLO_BUFFER_BASE_SIZE (h ++ firstn 3 (phase_setup s))) = Some buffer ->
    Forall (transaction_trace (Some buffer)) txs ->
    (List.length txs <= env_colo_rounds E)%nat ->
    phase_outcome s h
      (h ++ phase_setup s ++ List.concat txs ++ phase_teardown (Some buffer) (Some rp)).

(** ** Outcomes of the incoming thread *)

(** One pass through the loop body makes the first [n] calls of
    [responder_steps]; it is left with an error or reaches its end, and
    never by the [assert]. *)
Inductive responder_body_outcome (mis : MigrationIncomingState) (h : Trace)
  : option LoopExit * Trace -> Prop :=
| body_no_request e :
    env_file_error E (h ++ [ev_qemu_get_be32 (from_src_file mis)]) < 0
    \/ decoded h <> COLO_MESSAGE_CHECKPOINT_REQUEST cm ->
    responder_body_outcome mis h
      (Some (exit_out (Some e)), h ++ firstn 2 (responder_steps mis))
| body_failed n e :
    In n [2; 5; 7; 10; 13]%nat ->
    decoded h = COLO_MESSAGE_CHECKPOINT_REQUEST cm ->
    responder_body_outcome mis h
      (Some (exit_out (Some e)), h ++ firstn n (responder_steps mis))
| body_done :
    decoded h = COLO_MESSAGE_CHECKPOINT_REQUEST cm ->
    decoded (h ++ firstn 5 (responder_steps mis)) = COLO_MESSAGE_VMSTATE_SEND cm ->
    responder_body_outcome mis h (None, h ++ responder_steps mis).

Inductive thread_outcome (mis : MigrationIncomingState) (h : Trace)
  : ThreadEnd * Trace -> Prop :=
| thread_no_return_path :
    fst (qemu_file_get_return_path (from_src_file mis)
           (h ++ firstn 1 (responder_prologue mis))) = None ->
    thread_outcome mis h
      (thread_returned (with_return_path mis None),
       h ++ firstn 2 (responder_prologue mis)
         ++ [ev_error_report "colo incoming thread: Open QEMUFile to_src_file failed"]
         ++ responder_teardown (with_return_path mis None))
| thread_no_ram_cache rp :
    fst (qemu_file_get_return_path (from_src_file mis)
           (h ++ firstn 1 (responder_prologue mis))) = Some rp ->
    thread_outcome mis h
      (thread_returned (with_return_path mis (Some rp)),
       h ++ firstn 4 (responder_prologue mis)
         ++ [ev_error_report "Failed to initialize ram cache"]
         ++ responder_teardown (with_return_path mis (Some rp)))
| thread_not_ready rp n e :
    fst (qemu_file_get_return_path (from_src_file mis)
           (h ++ firstn 1 (responder_prologue mis))) = Some rp ->
    In n [4; 7]%nat ->
    thread_outcome mis h
      (thread_returned (with_return_path mis (Some rp)),
       h ++ firstn n (responder_prologue mis)
         ++ [ev_error_report_err e]
         ++ responder_teardown (with_return_path mis (Some rp)))
| thread_ran rp m n report :
    fst (qemu_file_get_return_path (from_src_file mis)
           (h ++ firstn 1 (responder_prologue mis))) = Some rp ->
    (m <= env_colo_rounds E)%nat ->
    In n [0; 2; 5; 7; 10; 13]%nat ->
    report = [] /\ n = 0%nat \/ (exists e, report = [ev_error_report_err e]) ->
    thread_outcome mis h
      (thread_returned (with_return_path mis (Some rp)),
       h ++ responder_prologue mis
         ++ List.concat (repeat (responder_steps (with_return_path mis (Some rp))) m)
         ++ firstn n (responder_steps (with_return_path mis (Some rp)))
         ++ report
         ++ responder_teardown (with_return_path mis (Some rp))).

(** ** What the two sides may call *)

(** A call of the primary side, [to] being its outbound channel and [from]
    the return path: it sends only CHECKPOINT_REQUEST, VMSTATE_SEND and
    VMSTATE_SIZE, a value or the buffer, all on [to]; it receives only on
    [from]; and it makes none of the calls of the incoming side. *)
Definition primary_call_ok (to from : option QEMUFile) (e : Event) : Prop :=
  match e with
  | ev_qemu_put_be32 f v =>
      f = to /\
      In v [COLO_MESSAGE_CHECKPOINT_REQUEST cm; COLO_MESSAGE_VMSTATE_SEND cm;
            COLO_MESSAGE_VMSTATE_SIZE cm]
  | ev_qemu_put_be64 f _ | ev_qsb_put_buffer f _ _ => f = to
  | ev_qemu_get_be32 f => f = from
  | ev_qemu_file_set_blocking _ _ | ev_colo_init_ram_cache
  | ev_colo_release_ram_cache | ev_migration_incoming_exit_colo => False
  | _ => True
  end.

(** A call of the incoming side, [from] being its inbound channel and [to]
    the return path: it sends only CHECKPOINT_READY, CHECKPOINT_REPLY,
    VMSTATE_RECEIVED and VMSTATE_LOADED, on [to], and never a value or a
    buffer; it receives only on [from]; and it neither stops or starts the
    guest nor saves its state nor touches a [QEMUSizedBuffer]. *)
Definition secondary_call_ok (from to : option QEMUFile) (e : Event) : Prop :=
  match e with
  | ev_qemu_put_be32 f v =>
      f = to /\
      In v [COLO_MESSAGE_CHECKPOINT_READY cm; COLO_MESSAGE_CHECKPOINT_REPLY cm;
            COLO_MESSAGE_VMSTATE_RECEIVED cm; COLO_MESSAGE_VMSTATE_LOADED cm]
  | ev_qemu_get_be32 f => f = from
  | ev_qemu_put_be64 _ _ | ev_qsb_put_buffer _ _ _
  | ev_vm_stop_force_state _ | ev_vm_start
  | ev_qemu_savevm_state_header _ | ev_qemu_savevm_state_begin _ _ _
  | ev_qemu_savevm_state_complete_precopy _ _
  | ev_qemu_bufopen _ _ | ev_qsb_create _ | ev_qsb_set_length _ _
  | ev_qsb_get_length _ | ev_qsb_free _ => False
  | _ => True
  end.

(** What holds of the calls of every transaction, and of any number of
    them in a row, on the channels [to] and [from]: only calls of the
    primary side; the iothread lock free before and after, held around
    every stop and start of the guest and every save of its device state
    and around nothing else; and no call of [migrate_set_state]. *)
Definition primary_loop_ok (to from : option QEMUFile) (t : Trace) : Prop :=
  Forall (primary_call_ok to from) t
  /\ lock_strict false t = Some false
  /\ count is_migrate_set_state t = 0%nat.

(** ** Conditions on the environment *)

(** At history [h], a [colo_put_cmd] of [cmd] on [f] goes through: the
    ordinal is below the bound and the channel reports no error after the
    flush. *)
Definition send_ok (f : option QEMUFile) (cmd : COLOMessage) (h : Trace) : Prop :=
  cmd < COLO_MESSAGE__MAX cm /\
  0 <= env_file_error E (h ++ [ev_qemu_put_be32 f cmd; ev_qemu_fflush f]).

(** At history [h], the command [expect_cmd] is received on [f]: the
    channel reports no error after the read and the ordinal read is below
    the bound and is [expect_cmd]. *)
Definition recv_ok (f : option QEMUFile) (expect_cmd : COLOMessage) (h : Trace) : Prop :=
  0 <= env_file_error E (h ++ [ev_qemu_get_be32 f]) /\
  decoded h < COLO_MESSAGE__MAX cm /\
  decoded h = expect_cmd.

(** The calls of the successive transactions that the loop of
    [colo_process_checkpoint] runs from history [h], one list for each
    call of [colo_do_checkpoint_transaction]: the next one starts where
    the last one ended and with [*s] as it left it, and there is none
    after one that returned a negative value or once the status has left
    COLO. *)
Fixpoint transaction_runs (rounds : nat) (s : MigrationState)
    (buffer : option QEMUSizedBuffer) (h : Trace) : list Trace :=
  match rounds with
  | O => []
  | S rounds' =>
      let '(ret_, s', h') := colo_do_checkpoint_transaction s buffer h in
      emitted (colo_do_checkpoint_transaction s buffer) h
      :: (if ret_ <? 0 then [] else transaction_runs rounds' s' buffer h')
  end.

(** The number of calls [colo_put_cmd] makes for [cmd]: none when the
    ordinal is out of range. *)
Definition sent_calls (cmd : COLOMessage) : nat :=
  if cmd <? COLO_MESSAGE__MAX cm then 3%nat else 0%nat.

(** At history [h], every step of one pass through the loop body of the
    incoming thread succeeds: CHECKPOINT_REQUEST is received,
    CHECKPOINT_REPLY goes through, VMSTATE_SEND is received, and
    VMSTATE_RECEIVED and VMSTATE_LOADED go through, each at the history
    the calls before it have left. *)
Definition pass_complete (mis : MigrationIncomingState) (h : Trace) : Prop :=
  recv_ok (from_src_file mis) (COLO_MESSAGE_CHECKPOINT_REQUEST cm) h /\
  send_ok (to_src_file mis) (COLO_MESSAGE_CHECKPOINT_REPLY cm)
          (h ++ firstn 2 (responder_steps mis)) /\
  recv_ok (from_src_file mis) (COLO_MESSAGE_VMSTATE_SEND cm)
          (h ++ firstn 5 (responder_steps mis)) /\
  send_ok (to_src_file mis) (COLO_MESSAGE_VMSTATE_RECEIVED cm)
          (h ++ firstn 7 (responder_steps mis)) /\
  send_ok (to_src_file mis) (COLO_MESSAGE_VMSTATE_LOADED cm)
          (h ++ firstn 10 (responder_steps mis)).

(** The pass started at [h] fails: [n] is the number of calls of
    [responder_steps] it makes, those up to and including the first step
    that fails, and [e] the error it leaves.  When a command other than
    CHECKPOINT_REQUEST is received nothing is sent, and [e] names the
    ordinal read if that is a valid one. *)
Definition pass_fails (mis : MigrationIncomingState) (h : Trace) (n : nat) (e : Error)
  : Prop :=
  let steps := responder_steps mis in
  ~ recv_ok (from_src_file mis) (COLO_MESSAGE_CHECKPOINT_REQUEST cm) h /\
  n = 2%nat /\
  (0 <= env_file_error E (h ++ [ev_qemu_get_be32 (from_src_file mis)]) ->
   decoded h < COLO_MESSAGE__MAX cm ->
   e = error_setg "Got unknown COLO command: %d" [ArgD (decoded h)])
  \/ recv_ok (from_src_file mis) (COLO_MESSAGE_CHECKPOINT_REQUEST cm) h /\
     (~ send_ok (to_src_file mis) (COLO_MESSAGE_CHECKPOINT_REPLY cm)
          (h ++ firstn 2 steps) /\
      n = (2 + sent_calls (COLO_MESSAGE_CHECKPOINT_REPLY cm))%nat
      \/ send_ok (to_src_file mis) (COLO_MESSAGE_CHECKPOINT_REPLY cm)
           (h ++ firstn 2 steps) /\
         (~ recv_ok (from_src_file mis) (COLO_MESSAGE_VMSTATE_SEND cm)
              (h ++ firstn 5 steps) /\
          n = 7%nat
          \/ recv_ok (from_src_file mis) (COLO_MESSAGE_VMSTATE_SEND cm)
               (h ++ firstn 5 steps) /\
             (~ send_ok (to_src_file mis) (COLO_MESSAGE_VMSTATE_RECEIVED cm)
                  (h ++ firstn 7 steps) /\
              n = (7 + sent_calls (COLO_MESSAGE_VMSTATE_RECEIVED cm))%nat
              \/ send_ok (to_src_file mis) (COLO_MESSAGE_VMSTATE_RECEIVED cm)
                   (h ++ firstn 7 steps) /\
                 ~ send_ok (to_src_file mis) (COLO_MESSAGE_VMSTATE_LOADED cm)
                     (h ++ firstn 10 steps) /\
                 n = (10 + sent_calls (COLO_MESSAGE_VMSTATE_LOADED cm))%nat))).

(** ** Proofs *)

Ltac unfold_monad :=
  cbv beta iota zeta delta
    [bind ret call ask
     qemu_put_be32 qemu_put_be64 qemu_fflush qemu_file_get_error qemu_get_be32
     qemu_fclose qemu_bufopen qsb_set_length qsb_get_length qsb_put_buffer
     qsb_create qsb_free qemu_file_get_return_path qemu_file_set_blocking
     qemu_mutex_lock_iothread qemu_mutex_unlock_iothread vm_stop_force_state vm_start
     qemu_savevm_state_header qemu_savevm_state_begin qemu_savevm_state_complete_precopy
     migrate_set_state colo_init_ram_cache colo_release_ram_cache
     migration_incoming_exit_colo error_report error_report_err].

Ltac flatten_trace :=
  rewrite <- ?app_assoc; cbn [app put_cmd_events get_cmd_events put_value_events].

Lemma colo_put_cmd_outcome f cmd h :
  put_cmd_outcome f cmd h (colo_put_cmd f cmd h).
Proof.
  unfold colo_put_cmd.
  destruct (Z.geb_spec cmd (COLO_MESSAGE__MAX cm)).
  - now constructor.
  - unfold_monad. flatten_trace.
    destruct (Z.ltb_spec (env_file_error E (h ++ [ev_qemu_put_be32 f cmd; ev_qemu_fflush f])) 0).
    + now apply put_cmd_io_error.
    + now apply put_cmd_ok.
Qed.

Lemma colo_put_cmd_value_outcome f cmd value h :
  put_cmd_value_outcome f cmd value h (colo_put_cmd_value f cmd value h).
Proof.
  unfold colo_put_cmd_value, bind.
  destruct (colo_put_cmd_outcome f cmd h).
  - now apply put_value_cmd_invalid.
  - apply put_value_cmd_io_error.
  - unfold_monad. flatten_trace.
    match goal with |- context [if ?c then _ else _] => destruct c end.
    + apply (put_value_io_error f cmd value h).
    + apply (put_value_ok f cmd value h).
Qed.

Lemma colo_get_cmd_outcome f h : get_cmd_outcome f h (colo_get_cmd f h).
Proof.
  unfold colo_get_cmd. unfold_monad. flatten_trace. fold (decoded h).
  destruct (Z.ltb_spec (env_file_error E (h ++ [ev_qemu_get_be32 f])) 0).
  - now apply get_cmd_io_error.
  - destruct (Z.geb_spec (decoded h) (COLO_MESSAGE__MAX cm)).
    + now apply get_cmd_invalid.
    + now apply get_cmd_ok.
Qed.

Lemma colo_get_check_cmd_outcome f expect_cmd h :
  get_check_cmd_outcome f expect_cmd h (colo_get_check_cmd f expect_cmd h).
Proof.
  unfold colo_get_check_cmd, bind.
  pose proof (colo_get_cmd_outcome f h) as H.
  destruct (colo_get_cmd f h) as [[cmd err] h'] eqn:Hrun.
  inversion H; subst; clear H; unfold ret.
  - now apply get_check_propagated.
  - now apply get_check_propagated.
  - destruct (Z.eqb_spec (decoded h) expect_cmd); cbn [negb].
    + now apply get_check_ok.
    + now apply get_check_mismatch.
Qed.

Ltac run_next :=
  flatten_trace;
  cbn [to_dst_file from_dst_file params_blk params_shared from_src_file to_src_file];
  match goal with
  | |- context [colo_put_cmd_value ?f ?c ?v ?h0] =>
      destruct (colo_put_cmd_value_outcome f c v h0)
  | |- context [colo_put_cmd ?f ?c ?h0] =>
      destruct (colo_put_cmd_outcome f c h0)
  | |- context [colo_get_check_cmd ?f ?c ?h0] =>
      destruct (colo_get_check_cmd_outcome f c h0)
  end;
  cbv beta iota.

Ltac opened H := unfold qemu_bufopen, ask; cbn; rewrite H; reflexivity.

Lemma colo_do_checkpoint_transaction_outcome s buffer h :
  transaction_outcome s buffer h (colo_do_checkpoint_transaction s buffer h).
Proof.
  unfold colo_do_checkpoint_transaction, colo_do_checkpoint_transaction_out.
  unfold_monad.
  run_next; flatten_trace.
  1: apply (tx_failed_before_open s buffer h 0); cbn; tauto.
  1: apply (tx_failed_before_open s buffer h 3); cbn; tauto.
  run_next; flatten_trace.
  1-2: apply (tx_failed_before_open s buffer h 5); cbn; tauto.
  destruct buffer as [b|].
  2: { flatten_trace. apply (tx_open_failed s None h); [reflexivity | assumption]. }
  match goal with |- context [env_bufopen E ?h0] =>
    destruct (env_bufopen E h0) eqn:Hopen end.
  2: { flatten_trace. apply (tx_open_failed s (Some b) h); [opened Hopen | assumption]. }
  destruct b.
  run_next; flatten_trace.
  1: apply (tx_send_failed s (Some colo_buffer) h 16 _ (buffer_file colo_buffer));
       [cbn; tauto | opened Hopen | assumption].
  1: apply (tx_send_failed s (Some colo_buffer) h 19 _ (buffer_file colo_buffer));
       [cbn; tauto | opened Hopen | assumption].
  run_next; flatten_trace.
  1: apply (tx_send_failed s (Some colo_buffer) h 20 _ (buffer_file colo_buffer));
       [cbn; tauto | opened Hopen | assumption].
  1: apply (tx_send_failed s (Some colo_buffer) h 23 _ (buffer_file colo_buffer));
       [cbn; tauto | opened Hopen | assumption].
  1: apply (tx_send_failed s (Some colo_buffer) h 26 _ (buffer_file colo_buffer));
       [cbn; tauto | opened Hopen | assumption].
  match goal with |- context [if ?c <? 0 then _ else _] =>
    destruct (Z.ltb_spec c 0) end.
  1: flatten_trace;
     apply (tx_payload_failed s (Some colo_buffer) h _ (buffer_file colo_buffer));
       [assumption | opened Hopen | assumption].
  run_next; flatten_trace.
  1-2: apply (tx_ack_failed s (Some colo_buffer) h 31 _ _ (buffer_file colo_buffer));
       [cbn; tauto | assumption | opened Hopen | assumption].
  run_next; flatten_trace.
  1-2: apply (tx_ack_failed s (Some colo_buffer) h 33 _ _ (buffer_file colo_buffer));
       [cbn; tauto | assumption | opened Hopen | assumption].
  apply (tx_done s (Some colo_buffer) h (buffer_file colo_buffer));
    [opened Hopen | assumption ..].
Qed.

Lemma run_emitted {A : Type} (m : M A) (h : Trace) (a : A) (t : Trace) :
  m h = (a, h ++ t) -> result m h = a /\ emitted m h = t.
Proof.
  intros H. unfold result, emitted. rewrite H. cbn [fst snd]. split; [reflexivity|].
  rewrite skipn_app, skipn_all, Nat.sub_diag. reflexivity.
Qed.

Lemma bufopen_some mode buffer h trans :
  fst (qemu_bufopen mode buffer h) = Some trans ->
  buffer = Some colo_buffer /\ trans = buffer_file colo_buffer.
Proof.
  unfold qemu_bufopen, ask. cbn [fst].
  destruct buffer as [[]|]; [|discriminate].
  destruct (env_bufopen E h); [|discriminate].
  intros [= <-]. split; reflexivity.
Qed.

(** Case analysis on a run of the transaction: the run is replaced by its
    outcome, with the position [n] made concrete. *)
Ltac transaction_cases s buffer h :=
  let Hrun := fresh "Hrun" in
  let Hout := fresh "Hout" in
  pose proof (colo_do_checkpoint_transaction_outcome s buffer h) as Hout;
  destruct (colo_do_checkpoint_transaction s buffer h) as [[? ?] ?] eqn:Hrun;
  inversion Hout; subst; clear Hout;
  apply run_emitted in Hrun; destruct Hrun as [Hres Hemit];
  rewrite ?Hres, ?Hemit; cbn [fst snd];
  repeat match goal with
         | H : In _ (_ :: _) |- _ => destruct H as [<- | H]
         | H : In _ [] |- _ => destruct H
         | H : fst (qemu_bufopen _ _ _) = Some ?t |- _ =>
             is_var t;
             let Hb := fresh in
             destruct (bufopen_some _ _ _ _ H) as [Hb ->];
             try (injection Hb as ->); try subst
         end;
  cbn [option_map].

(** Exhibits the position at which a run given as a list of calls left
    [transaction_steps]. *)
Ltac transaction_prefix_with tac :=
  let try_at n := (exists n; eexists; split; [reflexivity | tac]) in
  first [ try_at 36%nat | try_at 33%nat | try_at 31%nat | try_at 29%nat
        | try_at 26%nat | try_at 23%nat | try_at 20%nat | try_at 19%nat
        | try_at 16%nat | try_at 7%nat | try_at 5%nat | try_at 3%nat
        | try_at 0%nat ].

Ltac transaction_prefix := transaction_prefix_with reflexivity.


(** The guest is never resumed by a transaction that reports an error or
    returns a negative value. *)
Lemma transaction_failure_never_resumes s buffer h :
  let run := colo_do_checkpoint_transaction s buffer in
  count is_error_report_err (emitted run h) <> 0%nat \/ fst (result run h) < 0 ->
  count is_vm_start (emitted run h) = 0%nat.
Proof.
  cbv zeta. transaction_cases s buffer h; intros [Herr | Hneg];
    try reflexivity; try lia; exfalso; apply Herr; reflexivity.
Qed.

(** Once a transaction has got as far as waiting for VMSTATE_RECEIVED (its
    second [qemu_get_be32]), [ret] holds the non-negative result of the
    last [qemu_file_get_error]; the two [goto out] that follow return it,
    and the end of the function returns 0. *)
Lemma transaction_ack_failure_returns_nonnegative s buffer h :
  let run := colo_do_checkpoint_transaction s buffer in
  (2 <= count is_get_be32 (emitted run h))%nat ->
  0 <= fst (result run h).
Proof.
  cbv zeta. transaction_cases s buffer h; cbv [count]; cbn; lia.
Qed.

(** C3 (amended). When the transaction returns a negative value it has not
    resumed the guest, and the guest is in the state of the failing step:
    as it was on entry when the run stopped in steps 1 to 3, before the
    stop call (at most 7 calls made), and stopped when the run stopped
    after the stop call, while sending (16 to 29 calls made). *)
Theorem C3_failure_leaves_guest_as_at_failing_step (s : MigrationState)
    (buffer : option QEMUSizedBuffer) (h : Trace) (before : bool) :
  let run := colo_do_checkpoint_transaction s buffer in
  let steps := transaction_steps s buffer (transaction_size s buffer h) in
  fst (result run h) < 0 ->
  count is_vm_start (emitted run h) = 0%nat /\
  exists n out,
    emitted run h = firstn n steps ++ out /\
    forallb is_report_or_close out = true /\
    (n <= 7 \/ 16 <= n <= 29)%nat /\
    guest_running before (emitted run h) = (if (n <=? 7)%nat then before else false).
Proof.
  cbv zeta. transaction_cases s buffer h; intros Hneg; try lia.
  all: split; [reflexivity |].
  all: transaction_prefix_with
         ltac:(split; [reflexivity | split; [lia | reflexivity]]).
Qed.

(** C10. The transaction closes the write file over the buffer exactly
    once, as its last call, when [qemu_bufopen] returned a file, and never
    otherwise: either [qemu_bufopen] is not reached and nothing is closed,
    or it is the 7th call and the calls after it contain one [qemu_fclose],
    of the file it returned and in last position, or none when it returned
    NULL. *)
Theorem C10_buffer_file_closed_iff_opened (s : MigrationState)
    (buffer : option QEMUSizedBuffer) (h : Trace) :
  let run := colo_do_checkpoint_transaction s buffer in
  let steps := transaction_steps s buffer 0 in
  (count is_bufopen (emitted run h) = 0%nat /\
   count is_fclose (emitted run h) = 0%nat)
  \/ (exists rest,
        emitted run h = firstn 6 steps ++ ev_qemu_bufopen "w" buffer :: rest /\
        count is_bufopen rest = 0%nat /\
        match fst (qemu_bufopen "w" buffer (h ++ firstn 6 steps)) with
        | Some trans =>
            count is_fclose rest = 1%nat /\
            last rest ev_vm_start = ev_qemu_fclose (Some trans)
        | None => count is_fclose rest = 0%nat
        end).
Proof.
  cbv zeta. transaction_cases s buffer h.
  1-3: left; split; reflexivity.
  all: right; eexists; split; [reflexivity |]; split; [reflexivity |].
  all: match goal with H : fst (qemu_bufopen _ _ _) = _ |- _ => rewrite H end.
  all: try (split; reflexivity); reflexivity.
Qed.

(** ** The primary phase *)

Lemma count_app p (a b : Trace) : count p (a ++ b) = (count p a + count p b)%nat.
Proof. unfold count. now rewrite filter_app, length_app. Qed.

Lemma count_concat_zero p (ts : list Trace) :
  Forall (fun t => count p t = 0%nat) ts -> count p (List.concat ts) = 0%nat.
Proof.
  induction 1 as [|t ts Ht _ IH]; [reflexivity|].
  cbn [List.concat]. rewrite count_app, Ht, IH. reflexivity.
Qed.

Lemma colo_do_checkpoint_transaction_trace s buffer h :
  exists r s' t,
    colo_do_checkpoint_transaction s buffer h = (r, s', h ++ t) /\
    transaction_trace buffer t /\
    to_dst_file s' = to_dst_file s /\ from_dst_file s' = from_dst_file s.
Proof.
  destruct (colo_do_checkpoint_transaction_outcome s buffer h);
    repeat match goal with
           | H : In _ (_ :: _) |- _ => destruct H as [<- | H]
           | H : In _ [] |- _ => destruct H
           | H : fst (qemu_bufopen _ _ _) = Some ?t |- _ =>
               is_var t;
               let Hb := fresh in
               destruct (bufopen_some _ _ _ _ H) as [Hb ->];
               try (injection Hb as ->); try subst
           end.
  all: eexists _, _, _; split; [reflexivity |]; split; [| split; reflexivity].
  all: split;
    [match goal with |- context [transaction_size ?s0 ?b0 ?h0] =>
       exists s0, (transaction_size s0 b0 h0) end; transaction_prefix |].
  all: repeat (split; [reflexivity |]).
  1-3: left; split; reflexivity.
  all: right;
    match goal with |- exists pre post, ?t = _ /\ _ =>
      exists (firstn 5 t), (skipn 7 t)
    end; split; [reflexivity | split; reflexivity].
Qed.

Lemma colo_process_checkpoint_loop_trace rounds :
  forall s buffer h,
  exists s' txs,
    colo_process_checkpoint_loop rounds s buffer h = (s', h ++ List.concat txs) /\
    Forall (transaction_trace buffer) txs /\
    (List.length txs <= rounds)%nat /\
    from_dst_file s' = from_dst_file s.
Proof.
  induction rounds as [|n IH]; intros s buffer h.
  - exists s, []. cbn. rewrite app_nil_r. repeat split; auto.
  - cbn [colo_process_checkpoint_loop]. unfold bind.
    destruct (colo_do_checkpoint_transaction_trace s buffer h)
      as (r & s1 & t & Hrun & Ht & _ & Hfrom).
    rewrite Hrun.
    destruct (r <? 0).
    + exists s1, [t]. cbn. rewrite app_nil_r.
      repeat split; auto. lia.
    + destruct (IH s1 buffer (h ++ t)) as (s2 & txs & Hloop & Hall & Hlen & Hf).
      rewrite Hloop. exists s2, (t :: txs). cbn [List.concat List.length].
      rewrite app_assoc. repeat split; auto; [lia | congruence].
Qed.

Lemma colo_process_checkpoint_outcome s h :
  phase_outcome s h (snd (colo_process_checkpoint s h)).
Proof.
  unfold colo_process_checkpoint, colo_process_checkpoint_out.
  unfold_monad. destruct s as [to from blk shared].
  cbn [to_dst_file from_dst_file params_blk params_shared].
  destruct to as [f|].
  2: { cbn [snd]. flatten_trace. now apply phase_no_return_path. }
  destruct (env_return_path E h) eqn:Hrp.
  2: { cbn [snd]. flatten_trace. apply phase_no_return_path.
       unfold qemu_file_get_return_path, ask. cbn. now rewrite Hrp. }
  set (s := mkMigrationState (Some f) from blk shared).
  assert (Hopen : fst (qemu_file_get_return_path (to_dst_file s) h)
                  = Some (return_path f)).
  { unfold qemu_file_get_return_path, ask. cbn. now rewrite Hrp. }
  run_next.
  1-2: cbn [snd]; flatten_trace; now apply (phase_not_ready s h (return_path f)).
  flatten_trace.
  match goal with |- context [env_qsb_create E ?h0] =>
    destruct (env_qsb_create E h0) eqn:Hbuf end.
  2: { cbn [snd]. flatten_trace. apply (phase_no_buffer s h (return_path f)).
       - exact Hopen.
       - change (env_qsb_create E (h ++ firstn 3 (phase_setup s)) = false) in Hbuf.
         unfold qsb_create, ask. cbn [fst]. now rewrite Hbuf. }
  match goal with |- context [colo_process_checkpoint_loop ?n ?s0 ?b ?h0] =>
    destruct (colo_process_checkpoint_loop_trace n s0 b h0)
      as (s' & txs & Hloop & Hall & Hlen & Hfrom);
    rewrite Hloop
  end.
  cbn [from_dst_file] in Hfrom. rewrite Hfrom. cbn [snd]. flatten_trace.
  apply (phase_ran s h (return_path f) colo_buffer txs); auto.
  change (env_qsb_create E (h ++ firstn 3 (phase_setup s)) = true) in Hbuf.
  unfold qsb_create, ask. cbn [fst]. now rewrite Hbuf.
Qed.

Lemma emitted_snd {A : Type} (m : M A) (h t : Trace) :
  snd (m h) = h ++ t -> emitted m h = t.
Proof.
  intros H. unfold emitted. rewrite H.
  rewrite skipn_app, skipn_all, Nat.sub_diag. reflexivity.
Qed.

Lemma transactions_count_zero buffer txs :
  Forall (transaction_trace buffer) txs ->
  count is_qsb_create (List.concat txs) = 0%nat /\
  count is_qsb_free (List.concat txs) = 0%nat /\
  count is_get_return_path (List.concat txs) = 0%nat /\
  count is_fclose_return_path (List.concat txs) = 0%nat.
Proof.
  intros H. repeat split; apply count_concat_zero;
    (eapply Forall_impl; [| exact H]); unfold transaction_trace; intros t Ht; tauto.
Qed.

Lemma return_path_some f h rp :
  fst (qemu_file_get_return_path f h) = Some rp ->
  exists f', f = Some f' /\ rp = return_path f'.
Proof.
  unfold qemu_file_get_return_path, ask. cbn [fst].
  destruct f as [f'|]; [|discriminate].
  destruct (env_return_path E h); [|discriminate].
  intros [= <-]. now exists f'.
Qed.

(** ** The incoming thread *)

Lemma colo_wait_handle_cmd_run f h :
  colo_wait_handle_cmd f h =
  let '(cmd, local_err, h') := colo_get_cmd f h in
  match local_err with
  | Some _ => (None, local_err, h')
  | None =>
      if cmd =? COLO_MESSAGE_CHECKPOINT_REQUEST cm then (Some 1, None, h')
      else (Some 0, Some (error_setg "Got unknown COLO command: %d" [ArgD cmd]), h')
  end.
Proof.
  unfold colo_wait_handle_cmd, bind, ret.
  destruct (colo_get_cmd f h) as [[cmd [e|]] h']; [reflexivity|].
  destruct (cmd =? COLO_MESSAGE_CHECKPOINT_REQUEST cm); reflexivity.
Qed.

Ltac responder_trace :=
  flatten_trace;
  cbv [responder_steps put_cmd_events get_cmd_events firstn app
       from_src_file to_src_file].

Lemma colo_process_incoming_loop_body_outcome mis h :
  responder_body_outcome mis h (colo_process_incoming_loop_body mis h).
Proof.
  unfold colo_process_incoming_loop_body. unfold bind at 1.
  rewrite colo_wait_handle_cmd_run.
  pose proof (colo_get_cmd_outcome (from_src_file mis) h) as Hget.
  destruct (colo_get_cmd (from_src_file mis) h) as [[cmd err] h'].
  inversion Hget as [r Hr Hneg | Hpos Hmax | Hpos Hmax]; subst; clear Hget.
  - apply body_no_request. now left.
  - destruct (Z.eq_dec (decoded h) (COLO_MESSAGE_CHECKPOINT_REQUEST cm)) as [Heq|Hne].
    + apply (body_failed mis h 2); [cbn; tauto | exact Heq].
    + apply body_no_request. now right.
  - destruct (Z.eqb_spec (decoded h) (COLO_MESSAGE_CHECKPOINT_REQUEST cm)) as [Heq|Hne].
    2: { apply body_no_request. now right. }
    unfold_monad. cbn [Z.eqb].
    run_next; flatten_trace.
    1: apply (body_failed mis h 2); [cbn; tauto | exact Heq].
    1: apply (body_failed mis h 5); [cbn; tauto | exact Heq].
    run_next; flatten_trace.
    1-2: apply (body_failed mis h 7); [cbn; tauto | exact Heq].
    run_next; flatten_trace.
    1: apply (body_failed mis h 7); [cbn; tauto | exact Heq].
    1: apply (body_failed mis h 10); [cbn; tauto | exact Heq].
    run_next; flatten_trace.
    1: apply (body_failed mis h 10); [cbn; tauto | exact Heq].
    1: apply (body_failed mis h 13); [cbn; tauto | exact Heq].
    apply (body_done mis h); assumption.
Qed.

Lemma colo_process_incoming_loop_trace rounds :
  forall mis h,
  exists m n local_err,
    colo_process_incoming_loop rounds mis h
    = (exit_out local_err,
       h ++ List.concat (repeat (responder_steps mis) m)
         ++ firstn n (responder_steps mis)) /\
    (m <= rounds)%nat /\
    In n [0; 2; 5; 7; 10; 13]%nat /\
    (local_err = None -> n = 0%nat).
Proof.
  induction rounds as [|k IH]; intros mis h.
  - exists 0%nat, 0%nat, None. cbn. rewrite app_nil_r. repeat split; auto.
  - cbn [colo_process_incoming_loop]. unfold bind.
    destruct (colo_process_incoming_loop_body_outcome mis h) as [e _ | n e Hn _ | _ _].
    + exists 0%nat, 2%nat, (Some e). cbn [repeat List.concat app].
      repeat split; [lia | cbn; tauto | discriminate].
    + exists 0%nat, n, (Some e). cbn [repeat List.concat app].
      repeat split; [lia | cbn in *; tauto | discriminate].
    + destruct (IH mis (h ++ responder_steps mis)) as (m & n & err & Hloop & Hm & Hn & He).
      rewrite Hloop. exists (S m), n, err. cbn [repeat List.concat].
      rewrite <- !app_assoc. repeat split; auto. lia.
Qed.

Lemma colo_process_incoming_thread_outcome mis h :
  thread_outcome mis h (colo_process_incoming_thread mis h).
Proof.
  unfold colo_process_incoming_thread, colo_process_incoming_thread_out.
  unfold_monad. destruct mis as [from to].
  cbn [from_src_file to_src_file].
  set (mis := mkMigrationIncomingState from to).
  destruct from as [f|].
  2: { flatten_trace. now apply (thread_no_return_path mis h). }
  match goal with |- context [env_return_path E ?h0] =>
    destruct (env_return_path E h0) eqn:Hrp end.
  2: { flatten_trace. apply (thread_no_return_path mis h).
       unfold qemu_file_get_return_path, ask. cbn. now rewrite Hrp. }
  assert (Hopen : fst (qemu_file_get_return_path (from_src_file mis)
                         (h ++ firstn 1 (responder_prologue mis)))
                  = Some (return_path f)).
  { unfold qemu_file_get_return_path, ask. cbn. now rewrite Hrp. }
  match goal with |- context [env_init_ram_cache E ?h0 <? 0] =>
    destruct (env_init_ram_cache E h0 <? 0) end.
  1: { flatten_trace. now apply (thread_no_ram_cache mis h (return_path f)). }
  run_next; flatten_trace.
  1: now apply (thread_not_ready mis h (return_path f) 4); [| cbn; tauto].
  1: now apply (thread_not_ready mis h (return_path f) 7); [| cbn; tauto].
  match goal with |- context [colo_process_incoming_loop ?r ?mis0 ?h0] =>
    destruct (colo_process_incoming_loop_trace r mis0 h0)
      as (m & n & err & Hloop & Hm & Hn & He);
    rewrite Hloop
  end.
  destruct err as [e|]; flatten_trace.
  - apply (thread_ran mis h (return_path f) m n [ev_error_report_err e]); auto.
    right. now exists e.
  - rewrite (He eq_refl) in *. 
    apply (thread_ran mis h (return_path f) m 0 []); auto.
Qed.

Lemma none_firstn p n (l : Trace) : count p l = 0%nat -> count p (firstn n l) = 0%nat.
Proof.
  unfold count. revert n. induction l as [|e l IH]; intros [|n] H; cbn in *; auto.
  destruct (p e); cbn in *; [discriminate | auto].
Qed.

Lemma none_concat_repeat p (l : Trace) m :
  count p l = 0%nat -> count p (List.concat (repeat l m)) = 0%nat.
Proof.
  intros H. induction m as [|m IH]; [reflexivity|].
  cbn [repeat List.concat]. now rewrite count_app, H, IH.
Qed.

(** C9. When [colo_wait_handle_cmd] leaves no error it has stored 1 in
    [*checkpoint_request], and it stores 0 only together with an error; so
    the [assert(request)] of the incoming thread, reached only without an
    error, never fails: no pass through the loop body, no run of the loop
    and no run of the thread ends in the failed assertion. *)
Theorem C9_assert_request_never_fails (f : option QEMUFile)
    (mis : MigrationIncomingState) (h : Trace) :
  (snd (fst (colo_wait_handle_cmd f h)) = None ->
   fst (fst (colo_wait_handle_cmd f h)) = Some 1)
  /\ (fst (fst (colo_wait_handle_cmd f h)) = Some 0 ->
      snd (fst (colo_wait_handle_cmd f h)) <> None)
  /\ fst (colo_process_incoming_loop_body mis h) <> Some exit_assert_failed
  /\ (forall rounds,
        fst (colo_process_incoming_loop rounds mis h) <> exit_assert_failed)
  /\ fst (colo_process_incoming_thread mis h) <> thread_aborted.
Proof.
  repeat split.
  - rewrite colo_wait_handle_cmd_run.
    destruct (colo_get_cmd f h) as [[cmd [e|]] h']; cbn; [discriminate|].
    destruct (cmd =? COLO_MESSAGE_CHECKPOINT_REQUEST cm); cbn; [reflexivity | discriminate].
  - rewrite colo_wait_handle_cmd_run.
    destruct (colo_get_cmd f h) as [[cmd [e|]] h']; cbn; [discriminate|].
    destruct (cmd =? COLO_MESSAGE_CHECKPOINT_REQUEST cm); cbn; discriminate.
  - destruct (colo_process_incoming_loop_body_outcome mis h); discriminate.
  - intros rounds.
    destruct (colo_process_incoming_loop_trace rounds mis h)
      as (m & n & err & Hloop & _). rewrite Hloop. discriminate.
  - destruct (colo_process_incoming_thread_outcome mis h); discriminate.
Qed.

(** C6 (amended). Every run of the incoming thread returns, and ends in
    one teardown: whatever was called before it, there [colo_release_ram_cache]
    and [migration_incoming_exit_colo] are each called exactly once, and
    the return path [mis->to_src_file] is closed exactly once if
    [qemu_file_get_return_path] had returned it and not at all if that
    call had failed; none of the three is called before the teardown. *)
Theorem C6_responder_teardown_once (mis : MigrationIncomingState) (h : Trace) :
  exists mis' body,
    colo_process_incoming_thread mis h
    = (thread_returned mis', h ++ body ++ responder_teardown mis') /\
    mis' = with_return_path mis
             (fst (qemu_file_get_return_path (from_src_file mis)
                     (h ++ firstn 1 (responder_prologue mis)))) /\
    count is_release_ram_cache body = 0%nat /\
    count is_fclose body = 0%nat /\
    count is_exit_colo body = 0%nat /\
    count is_release_ram_cache (responder_teardown mis') = 1%nat /\
    count is_exit_colo (responder_teardown mis') = 1%nat /\
    count is_fclose (responder_teardown mis')
      = (if to_src_file mis' is Some _ then 1 else 0)%nat /\
    last (body ++ responder_teardown mis') ev_vm_start
      = ev_migration_incoming_exit_colo.
Proof.
  destruct (colo_process_incoming_thread_outcome mis h)
    as [Hrp | rp Hrp | rp n e Hrp Hn | rp m n report Hrp Hm Hn Hrep];
    rewrite Hrp.
  - exists (with_return_path mis None),
      (firstn 2 (responder_prologue mis)
         ++ [ev_error_report "colo incoming thread: Open QEMUFile to_src_file failed"]).
    split; [now rewrite <- !app_assoc |]. repeat split; reflexivity.
  - exists (with_return_path mis (Some rp)),
      (firstn 4 (responder_prologue mis)
         ++ [ev_error_report "Failed to initialize ram cache"]).
    split; [now rewrite <- !app_assoc |]. repeat split; reflexivity.
  - exists (with_return_path mis (Some rp)),
      (firstn n (responder_prologue mis) ++ [ev_error_report_err e]).
    split; [now rewrite <- !app_assoc |].
    cbn in Hn. destruct Hn as [<- | [<- | []]]; repeat split; reflexivity.
  - exists (with_return_path mis (Some rp)),
      (responder_prologue mis
         ++ List.concat (repeat (responder_steps (with_return_path mis (Some rp))) m)
         ++ firstn n (responder_steps (with_return_path mis (Some rp)))
         ++ report).
    split; [now rewrite <- !app_assoc |].
    assert (Hrel : forall p,
               count p (responder_prologue mis) = 0%nat ->
               count p (responder_steps (with_return_path mis (Some rp))) = 0%nat ->
               count p report = 0%nat ->
               count p (responder_prologue mis
                 ++ List.concat (repeat (responder_steps (with_return_path mis (Some rp))) m)
                 ++ firstn n (responder_steps (with_return_path mis (Some rp)))
                 ++ report) = 0%nat).
    { intros p H1 H2 H3.
      now rewrite !count_app, H1, H3, none_concat_repeat, none_firstn. }
    assert (Hreport : forall p, p ev_vm_start = false ->
               (forall e, p (ev_error_report_err e) = false) -> count p report = 0%nat).
    { intros p _ Hp. destruct Hrep as [[-> _] | [e ->]]; [reflexivity |].
      unfold count. cbn. now rewrite Hp. }
    repeat split; try reflexivity; try (apply Hrel; [reflexivity | reflexivity |];
      apply Hreport; [reflexivity | intros; reflexivity]).
    rewrite !app_assoc. unfold responder_teardown. rewrite !app_assoc.
    apply last_last.
Qed.

(** ** The command channel *)

(** C7. [colo_put_cmd] with an ordinal at or above [COLO_MESSAGE__MAX]
    fails with the invalid-command error and leaves the trace as it was:
    nothing is written or flushed.  [colo_get_cmd] that decodes such an
    ordinal from a channel reporting no error fails with the
    invalid-command error and still returns the decoded value; and it
    fails with a transport error, carrying the channel's error number,
    when the channel reports an error. *)
Theorem C7_range_rejection (f : option QEMUFile) (cmd : COLOMessage) (h : Trace) :
  (COLO_MESSAGE__MAX cm <= cmd ->
   exists e,
     colo_put_cmd f cmd h = (Some e, h) /\
     emitted (colo_put_cmd f cmd) h = [] /\
     e = error_setg "%s: Invalid cmd" [ArgS "colo_put_cmd"] /\
     channel_error e = Some InvalidCommand)
  /\ (0 <= env_file_error E (h ++ [ev_qemu_get_be32 f]) ->
      COLO_MESSAGE__MAX cm <= decoded h ->
      exists e,
        colo_get_cmd f h = (decoded h, Some e, h ++ get_cmd_events f) /\
        e = error_setg "%s: Invalid cmd" [ArgS "colo_get_cmd"] /\
        channel_error e = Some InvalidCommand)
  /\ (env_file_error E (h ++ [ev_qemu_get_be32 f]) < 0 ->
      exists e,
        colo_get_cmd f h = (decoded h, Some e, h ++ get_cmd_events f) /\
        e = error_setg_errno (- env_file_error E (h ++ [ev_qemu_get_be32 f]))
                             "Can't get COLO command" [] /\
        channel_error e = Some TransportError).
Proof.
  split; [| split].
  - intros Hmax. eexists. split; [| split; [| split; reflexivity]].
    + unfold colo_put_cmd.
      destruct (Z.geb_spec cmd (COLO_MESSAGE__MAX cm)); [reflexivity | lia].
    + apply emitted_snd. unfold colo_put_cmd.
      destruct (Z.geb_spec cmd (COLO_MESSAGE__MAX cm)); [| lia].
      cbn. now rewrite app_nil_r.
  - intros Hpos Hmax. eexists. split; [| split; reflexivity].
    pose proof (colo_get_cmd_outcome f h) as Hout.
    inversion Hout as [r Hr Hneg Heq | ? ? Heq | ? ? Heq]; subst; try lia.
    reflexivity.
  - intros Hneg. eexists. split; [| split; reflexivity].
    pose proof (colo_get_cmd_outcome f h) as Hout.
    inversion Hout as [r Hr Hneg' Heq | ? ? Heq | ? ? Heq]; subst; try lia.
    reflexivity.
Qed.

(** What [colo_get_check_cmd] does with the result of [colo_get_cmd]: an
    error is passed on; without one, the call succeeds exactly when the
    decoded command is the expected one, and otherwise builds its error
    from [expect_cmd] and the decoded command, in this order. *)
Lemma colo_get_check_cmd_spec (f : option QEMUFile) (expect_cmd : COLOMessage)
    (h : Trace) :
  let '(cmd, local_err, h') := colo_get_cmd f h in
  colo_get_check_cmd f expect_cmd h
  = match local_err with
    | Some e => (Some e, h')
    | None =>
        if cmd =? expect_cmd then (None, h')
        else (Some (error_setg "Unexpected COLO command %d, expected %d"
                               [ArgD expect_cmd; ArgD cmd]), h')
    end.
Proof.
  unfold colo_get_check_cmd, bind, ret.
  destruct (colo_get_cmd f h) as [[cmd [e|]] h']; [reflexivity|].
  destruct (cmd =? expect_cmd); reflexivity.
Qed.

(** ** More on the command channel *)

Lemma append_nil_r (s : string) : (s ++ "")%string = s.
Proof. induction s as [|c s IH]; cbn; [reflexivity | now rewrite IH]. Qed.

(** X1. [colo_put_cmd] with an ordinal below [COLO_MESSAGE__MAX] writes
    the command, flushes and checks the channel, in this order and whether
    or not the check fails, and with any other ordinal it calls nothing;
    it succeeds exactly when the ordinal is below the bound and the check
    is not negative, and its error is a transport error in the first case
    and an invalid-command error in the second. *)
Theorem X1_colo_put_cmd_behaviour (f : option QEMUFile) (cmd : COLOMessage)
    (h : Trace) :
  let r := env_file_error E (h ++ [ev_qemu_put_be32 f cmd; ev_qemu_fflush f]) in
  emitted (colo_put_cmd f cmd) h
  = (if cmd <? COLO_MESSAGE__MAX cm then put_cmd_events f cmd else [])
  /\ (result (colo_put_cmd f cmd) h = None <-> cmd < COLO_MESSAGE__MAX cm /\ 0 <= r)
  /\ match result (colo_put_cmd f cmd) h with
     | Some e =>
         channel_error e
         = Some (if cmd <? COLO_MESSAGE__MAX cm then TransportError else InvalidCommand)
     | None => True
     end.
Proof.
  cbv zeta. unfold result, emitted.
  destruct (colo_put_cmd_outcome f cmd h) as [Hmax | r Hlt Hr Hneg | Hlt Hpos];
    cbn [fst snd];
    rewrite ?skipn_app, ?skipn_all, ?Nat.sub_diag; cbn [app skipn];
    destruct (Z.ltb_spec cmd (COLO_MESSAGE__MAX cm)); try lia;
    (split; [reflexivity | split; [| reflexivity]]).
  - split; [discriminate | lia].
  - subst r. split; [discriminate | lia].
  - split; [intros _; split; assumption | reflexivity].
Qed.

(** X2. [colo_put_cmd_value] writes the value only after the command has
    been sent and its check has passed, then flushes and checks again; a
    failing command send leaves the value unwritten.  The call succeeds
    exactly when the ordinal is below the bound and both checks are not
    negative. *)
Theorem X2_colo_put_cmd_value_behaviour (f : option QEMUFile) (cmd : COLOMessage)
    (value : Z) (h : Trace) :
  let r1 := env_file_error E (h ++ [ev_qemu_put_be32 f cmd; ev_qemu_fflush f]) in
  let r2 := env_file_error E (h ++ put_cmd_events f cmd
                                ++ [ev_qemu_put_be64 f value; ev_qemu_fflush f]) in
  emitted (colo_put_cmd_value f cmd value) h
  = (if cmd <? COLO_MESSAGE__MAX cm
     then put_cmd_events f cmd ++ (if r1 <? 0 then [] else put_value_events f value)
     else [])
  /\ (result (colo_put_cmd_value f cmd value) h = None
      <-> cmd < COLO_MESSAGE__MAX cm /\ 0 <= r1 /\ 0 <= r2)
  /\ (count is_put_be64 (emitted (colo_put_cmd_value f cmd value) h) = 0%nat
      <-> result (colo_put_cmd f cmd) h <> None).
Proof.
  cbv zeta. unfold colo_put_cmd_value, bind, result, emitted.
  destruct (colo_put_cmd_outcome f cmd h) as [Hmax | r Hlt Hr Hneg | Hlt Hpos];
    cbn [fst snd ret].
  - rewrite skipn_all. destruct (Z.ltb_spec cmd (COLO_MESSAGE__MAX cm)); try lia.
    repeat split; try discriminate; try reflexivity; try lia.
  - subst r. rewrite skipn_app, skipn_all, Nat.sub_diag. cbn [app skipn].
    destruct (Z.ltb_spec cmd (COLO_MESSAGE__MAX cm)); try lia.
    destruct (Z.ltb_spec (env_file_error E (h ++ [ev_qemu_put_be32 f cmd; ev_qemu_fflush f])) 0);
      try lia.
    repeat split; try discriminate; try reflexivity; try lia.
  - unfold_monad. flatten_trace.
    destruct (Z.ltb_spec cmd (COLO_MESSAGE__MAX cm)); try lia.
    destruct (Z.ltb_spec (env_file_error E (h ++ [ev_qemu_put_be32 f cmd; ev_qemu_fflush f])) 0);
      try lia.
    match goal with |- context [if ?c <? 0 then _ else _] =>
      destruct (Z.ltb_spec c 0) end;
      cbn [fst snd]; rewrite skipn_app, skipn_all, Nat.sub_diag; cbn [app skipn];
      repeat split; try discriminate; try reflexivity; try lia; try tauto.
Qed.

Lemma colo_get_cmd_behaviour (f : option QEMUFile) (h : Trace) :
  let r := env_file_error E (h ++ [ev_qemu_get_be32 f]) in
  emitted (colo_get_cmd f) h = get_cmd_events f
  /\ fst (result (colo_get_cmd f) h) = decoded h
  /\ 0 <= decoded h < 2 ^ 32
  /\ (snd (result (colo_get_cmd f) h) = None
      <-> 0 <= r /\ decoded h < COLO_MESSAGE__MAX cm).
Proof.
  cbv zeta.
  assert (Hrange : 0 <= decoded h < 2 ^ 32)
    by (unfold decoded; apply Z.mod_pos_bound; lia).
  unfold result, emitted.
  destruct (colo_get_cmd_outcome f h) as [r Hr Hneg | Hpos Hmax | Hpos Hmax];
    cbn [fst snd];
    rewrite skipn_app, skipn_all, Nat.sub_diag; cbn [app skipn];
    (split; [reflexivity | split; [reflexivity | split; [exact Hrange |]]]).
  - subst r. split; [discriminate | lia].
  - split; [discriminate | lia].
  - split; [intros _; split; assumption | reflexivity].
Qed.

(** X3. [colo_get_cmd] always makes exactly one read and one check of the
    channel and always returns the value it read, a number below 2^32; it
    succeeds exactly when the check is not negative and the value is below
    [COLO_MESSAGE__MAX]. *)
Theorem X3_colo_get_cmd_behaviour (f : option QEMUFile) (h : Trace) :
  let r := env_file_error E (h ++ [ev_qemu_get_be32 f]) in
  emitted (colo_get_cmd f) h = get_cmd_events f
  /\ fst (result (colo_get_cmd f) h) = decoded h
  /\ 0 <= decoded h < 2 ^ 32
  /\ (snd (result (colo_get_cmd f) h) = None
      <-> 0 <= r /\ decoded h < COLO_MESSAGE__MAX cm).
Proof. exact (colo_get_cmd_behaviour f h). Qed.

Lemma colo_get_check_cmd_behaviour (f : option QEMUFile)
    (expect_cmd : COLOMessage) (h : Trace) :
  let r := env_file_error E (h ++ [ev_qemu_get_be32 f]) in
  emitted (colo_get_check_cmd f expect_cmd) h = get_cmd_events f
  /\ (result (colo_get_check_cmd f expect_cmd) h = None
      <-> 0 <= r /\ decoded h < COLO_MESSAGE__MAX cm /\ decoded h = expect_cmd).
Proof.
  cbv zeta.
  destruct (colo_get_cmd_behaviour f h) as (Hem & Hcmd & _ & Hok).
  pose proof (colo_get_check_cmd_spec f expect_cmd h) as Hspec.
  unfold result, emitted in *.
  destruct (colo_get_cmd f h) as [[cmd err] h']. cbn [fst snd] in *. subst cmd.
  rewrite Hspec. destruct err as [e|]; cbn [fst snd].
  - split; [exact Hem |]. split; [discriminate |].
    intros (H1 & H2 & _). destruct Hok as [_ Hok]. now specialize (Hok (conj H1 H2)).
  - destruct Hok as [Hok _]. specialize (Hok eq_refl).
    destruct (Z.eqb_spec (decoded h) expect_cmd); cbn [fst snd];
      (split; [exact Hem |]); split; try discriminate; try tauto.
Qed.

(** X4. [colo_get_check_cmd] makes exactly the two calls of one receive,
    and so sends nothing, whatever it finds; it succeeds exactly when the
    channel reports no error and the command read is below the bound and
    is the expected one. *)
Theorem X4_colo_get_check_cmd_behaviour (f : option QEMUFile)
    (expect_cmd : COLOMessage) (h : Trace) :
  let r := env_file_error E (h ++ [ev_qemu_get_be32 f]) in
  emitted (colo_get_check_cmd f expect_cmd) h = get_cmd_events f
  /\ (result (colo_get_check_cmd f expect_cmd) h = None
      <-> 0 <= r /\ decoded h < COLO_MESSAGE__MAX cm /\ decoded h = expect_cmd).
Proof. exact (colo_get_check_cmd_behaviour f expect_cmd h). Qed.

(** X5. [colo_wait_handle_cmd] makes exactly one receive and has three
    outcomes: it stores 1 and leaves no error when CHECKPOINT_REQUEST was
    read; it stores 0 and leaves the error "Got unknown COLO command"
    naming the ordinal it read when another ordinal below the bound was
    read; and it stores nothing and passes on the transport or
    invalid-command error of [colo_get_cmd] otherwise. *)
Theorem X5_colo_wait_handle_cmd_behaviour (f : option QEMUFile) (h : Trace) :
  let r := env_file_error E (h ++ [ev_qemu_get_be32 f]) in
  emitted (colo_wait_handle_cmd f) h = get_cmd_events f
  /\ match result (colo_wait_handle_cmd f) h with
     | (Some 1, None) =>
         0 <= r /\ decoded h < COLO_MESSAGE__MAX cm /\
         decoded h = COLO_MESSAGE_CHECKPOINT_REQUEST cm
     | (Some 0, Some e) =>
         0 <= r /\ decoded h < COLO_MESSAGE__MAX cm /\
         decoded h <> COLO_MESSAGE_CHECKPOINT_REQUEST cm /\
         channel_error e = Some ProtocolMismatch /\
         error_message e
         = ("Got unknown COLO command: " ++ print_d (decoded h))%string
     | (None, Some e) =>
         r < 0 /\ channel_error e = Some TransportError
         \/ 0 <= r /\ COLO_MESSAGE__MAX cm <= decoded h /\
            channel_error e = Some InvalidCommand
     | _ => False
     end.
Proof.
  cbv zeta. unfold result, emitted. rewrite colo_wait_handle_cmd_run.
  destruct (colo_get_cmd_outcome f h) as [r Hr Hneg | Hpos Hmax | Hpos Hmax];
    cbn [fst snd]; rewrite ?skipn_app, ?skipn_all, ?Nat.sub_diag; cbn [app skipn].
  - subst r. split; [reflexivity |]. left. split; [assumption | reflexivity].
  - split; [reflexivity |]. right. repeat split; assumption.
  - destruct (Z.eqb_spec (decoded h) (COLO_MESSAGE_CHECKPOINT_REQUEST cm));
      cbn [fst snd]; rewrite ?skipn_app, ?skipn_all, ?Nat.sub_diag; cbn [app skipn];
      (split; [reflexivity |]).
    + repeat split; assumption.
    + repeat split; try assumption.
      unfold error_message. cbn. now rewrite append_nil_r.
Qed.

(** ** More on the checkpoint transaction *)

(** X6. A checkpoint transaction never changes the channel handles of
    [*s]; it changes [*s] only by clearing [params.blk] and
    [params.shared], which it does exactly when it gets as far as stopping
    the guest. *)
Theorem X6_transaction_effect_on_state (s : MigrationState)
    (buffer : option QEMUSizedBuffer) (h : Trace) :
  let run := colo_do_checkpoint_transaction s buffer in
  let s' := snd (result run h) in
  to_dst_file s' = to_dst_file s
  /\ from_dst_file s' = from_dst_file s
  /\ (params_blk s', params_shared s')
     = (if (count is_vm_stop (emitted run h) =? 0)%nat
        then (params_blk s, params_shared s) else (0, 0)).
Proof.
  cbv zeta. transaction_cases s buffer h; repeat split; reflexivity.
Qed.

(** X7. In every run of the checkpoint transaction the calls that stop
    and start the guest are none, or one stop, or one stop followed by one
    start: the guest is never started unless this run stopped it, and
    never stopped twice.  The run reports at most one error, and when it
    starts the guest it has reported none and returns 0. *)
Theorem X7_transaction_stop_start_shape (s : MigrationState)
    (buffer : option QEMUSizedBuffer) (h : Trace) :
  let run := colo_do_checkpoint_transaction s buffer in
  In (filter (fun e => is_vm_stop e || is_vm_start e) (emitted run h))
     [[]; [ev_vm_stop_force_state RUN_STATE_COLO];
      [ev_vm_stop_force_state RUN_STATE_COLO; ev_vm_start]]
  /\ (count is_report (emitted run h) <= 1)%nat
  /\ (count is_vm_start (emitted run h) = 0%nat
      \/ count is_report (emitted run h) = 0%nat /\ fst (result run h) = 0).
Proof.
  cbv zeta. transaction_cases s buffer h.
  all: split; [cbn; tauto | split; [cbv [count]; cbn; lia |]].
  all: first [left; reflexivity | right; split; reflexivity].
Qed.

(** ** More on the primary phase *)

Lemma lock_scan_app held (a b : Trace) :
  lock_scan held (a ++ b)
  = match lock_scan held a with
    | Some held' => lock_scan held' b
    | None => None
    end.
Proof.
  revert held. induction a as [|e a IH]; intros held; [reflexivity|].
  cbn [app lock_scan].
  destruct e; try (destruct held; cbn [andb]; auto);
    try (match goal with |- context [is_io ?e] => destruct (is_io e) end; auto).
Qed.

Lemma lock_strict_app held (a b : Trace) :
  lock_strict held (a ++ b)
  = match lock_strict held a with
    | Some held' => lock_strict held' b
    | None => None
    end.
Proof.
  revert held. induction a as [|e a IH]; intros held; [reflexivity|].
  cbn [app lock_strict]. destruct e; destruct held; auto.
Qed.

Lemma primary_loop_ok_nil to from : primary_loop_ok to from [].
Proof. repeat split. constructor. Qed.

Lemma primary_loop_ok_app to from a b :
  primary_loop_ok to from a -> primary_loop_ok to from b ->
  primary_loop_ok to from (a ++ b).
Proof.
  intros (Ha1 & Ha2 & Ha3) (Hb1 & Hb2 & Hb3). repeat split.
  - now apply Forall_app.
  - now rewrite lock_strict_app, Ha2.
  - now rewrite count_app, Ha3, Hb3.
Qed.

Ltac calls_ok :=
  repeat (apply Forall_cons; [cbn; auto 8 |]); apply Forall_nil.

Lemma colo_do_checkpoint_transaction_ok s buffer h :
  exists r s' t,
    colo_do_checkpoint_transaction s buffer h = (r, s', h ++ t) /\
    primary_loop_ok (to_dst_file s) (from_dst_file s) t.
Proof.
  destruct (colo_do_checkpoint_transaction_outcome s buffer h);
    repeat match goal with
           | H : In _ (_ :: _) |- _ => destruct H as [<- | H]
           | H : In _ [] |- _ => destruct H
           end.
  all: eexists _, _, _; split; [reflexivity |].
  all: split; [| split; reflexivity].
  all: cbv [transaction_steps step_request step_reply step_open step_stop step_save
            step_send step_received step_loaded step_resume put_cmd_events
            get_cmd_events firstn app].
  all: calls_ok.
Qed.

Lemma colo_process_checkpoint_loop_ok rounds :
  forall s buffer h,
  exists s' t,
    colo_process_checkpoint_loop rounds s buffer h = (s', h ++ t) /\
    primary_loop_ok (to_dst_file s) (from_dst_file s) t /\
    from_dst_file s' = from_dst_file s /\
    to_dst_file s' = to_dst_file s.
Proof.
  induction rounds as [|n IH]; intros s buffer h.
  - exists s, []. cbn. rewrite app_nil_r.
    split; [reflexivity | split; [apply primary_loop_ok_nil | split; reflexivity]].
  - cbn [colo_process_checkpoint_loop]. unfold bind.
    destruct (colo_do_checkpoint_transaction_ok s buffer h) as (r & s1 & t & Hrun & Hok).
    destruct (colo_do_checkpoint_transaction_trace s buffer h)
      as (r' & s1' & t' & Hrun' & _ & Hto & Hfrom).
    rewrite Hrun in Hrun'. injection Hrun' as <- <- Ht. clear Ht.
    rewrite Hrun.
    destruct (r <? 0).
    + exists s1, t. auto.
    + destruct (IH s1 buffer (h ++ t)) as (s2 & t2 & Hloop & Hok2 & Hf & Hg).
      rewrite Hloop, <- app_assoc. exists s2, (t ++ t2).
      rewrite Hto, Hfrom in Hok2.
      split; [reflexivity |].
      split; [now apply primary_loop_ok_app | split; congruence].
Qed.

Ltac skip_history :=
  cbn [snd]; flatten_trace; rewrite skipn_app, skipn_all, Nat.sub_diag;
  cbn [skipn app]; try reflexivity.

(** The four ways in which [colo_process_checkpoint] runs, by what its
    setup finds; [t] are the calls of its loop. *)
Lemma colo_process_checkpoint_run s h :
  let rp := fst (qemu_file_get_return_path (to_dst_file s) h) in
  let ready := fst (colo_get_check_cmd rp (COLO_MESSAGE_CHECKPOINT_READY cm)
                      (h ++ firstn 1 (phase_setup s))) in
  let created := fst (qsb_create COLO_BUFFER_BASE_SIZE (h ++ firstn 3 (phase_setup s))) in
  (rp = None /\
   emitted (colo_process_checkpoint s) h
   = firstn 1 (phase_setup s)
       ++ [ev_error_report "Open QEMUFile from_dst_file failed"]
       ++ phase_teardown None None)
  \/ (rp = option_map return_path (to_dst_file s) /\ rp <> None /\
      ((exists e, ready = Some e /\
          emitted (colo_process_checkpoint s) h
          = firstn 3 (phase_setup s) ++ [ev_error_report_err e]
              ++ phase_teardown None rp)
       \/ (ready = None /\ created = None /\
           emitted (colo_process_checkpoint s) h
           = firstn 4 (phase_setup s)
               ++ [ev_error_report "Failed to allocate colo buffer!"]
               ++ phase_teardown None rp)
       \/ (ready = None /\ created = Some colo_buffer /\
           exists t,
             emitted (colo_process_checkpoint s) h
             = phase_setup s ++ t ++ phase_teardown (Some colo_buffer) rp /\
             primary_loop_ok (to_dst_file s) rp t))).
Proof.
  cbv zeta. unfold emitted, colo_process_checkpoint, colo_process_checkpoint_out.
  unfold_monad. destruct s as [to from blk shared].
  cbn [to_dst_file from_dst_file params_blk params_shared].
  set (s := mkMigrationState to from blk shared).
  destruct to as [f|].
  2: { left. split; [reflexivity |]. now skip_history. }
  destruct (env_return_path E h) eqn:Hrp.
  2: { left. split; [reflexivity |]. now skip_history. }
  right. cbn [option_map fst]. split; [reflexivity |]. split; [discriminate |].
  change (h ++ firstn 1 (phase_setup s))
    with (h ++ [ev_qemu_file_get_return_path (Some f)]).
  pose proof (colo_get_check_cmd_outcome (Some (return_path f))
                (COLO_MESSAGE_CHECKPOINT_READY cm)
                (h ++ [ev_qemu_file_get_return_path (Some f)])) as Hout.
  destruct (colo_get_check_cmd (Some (return_path f)) (COLO_MESSAGE_CHECKPOINT_READY cm)
              (h ++ [ev_qemu_file_get_return_path (Some f)])) as [[e|] h1] eqn:Hready.
  { left. exists e. split; [reflexivity |].
    inversion Hout; subst; now skip_history. }
  right. inversion Hout; subst. clear Hout.
  cbn [fst]. rewrite <- app_assoc.
  change (h ++ firstn 3 (phase_setup s))
    with (h ++ [ev_qemu_file_get_return_path (Some f)]
            ++ get_cmd_events (Some (return_path f))).
  destruct (env_qsb_create E
              (h ++ [ev_qemu_file_get_return_path (Some f)]
                 ++ get_cmd_events (Some (return_path f)))) eqn:Hbuf.
  2: { left. split; [reflexivity |]. split; [reflexivity |]. now skip_history. }
  right. split; [reflexivity |]. split; [reflexivity |].
  match goal with |- context [colo_process_checkpoint_loop ?n ?s0 ?b ?h0] =>
    destruct (colo_process_checkpoint_loop_ok n s0 b h0)
      as (s' & t & Hloop & Hok & Hfrom & _);
    rewrite Hloop
  end.
  cbn [to_dst_file from_dst_file] in Hok, Hfrom. rewrite Hfrom.
  exists t. split; [now skip_history | exact Hok].
Qed.

Lemma migrate_start_colo_process_emitted s h :
  emitted (migrate_start_colo_process s) h
  = [ev_qemu_mutex_unlock_iothread;
     ev_migrate_set_state MIGRATION_STATUS_ACTIVE MIGRATION_STATUS_COLO]
    ++ emitted (colo_process_checkpoint s)
         (h ++ [ev_qemu_mutex_unlock_iothread;
                ev_migrate_set_state MIGRATION_STATUS_ACTIVE MIGRATION_STATUS_COLO])
    ++ [ev_qemu_mutex_lock_iothread].
Proof.
  set (h0 := h ++ [ev_qemu_mutex_unlock_iothread;
                   ev_migrate_set_state MIGRATION_STATUS_ACTIVE MIGRATION_STATUS_COLO]).
  assert (Hframe : snd (colo_process_checkpoint s h0)
                   = h0 ++ emitted (colo_process_checkpoint s) h0).
  { pose proof (colo_process_checkpoint_outcome s h0) as Hout.
    inversion Hout as [? Ht | ? ? ? Ht | ? ? ? Ht | ? ? ? ? ? ? ? Ht];
      symmetry in Ht; pose proof (emitted_snd _ _ _ Ht) as He; congruence. }
  apply emitted_snd. unfold migrate_start_colo_process. unfold_monad.
  rewrite <- app_assoc. cbn [app]. fold h0.
  destruct (colo_process_checkpoint s h0) as [s' h1]. cbn [snd] in *.
  rewrite Hframe. unfold h0. now rewrite <- !app_assoc.
Qed.

(** X11. Unless [colo_process_checkpoint] has obtained the return path
    and received CHECKPOINT_READY on it without error, it sends nothing,
    neither stops nor starts the guest, and neither creates nor opens the
    buffer. *)
Theorem X11_nothing_before_ready (s : MigrationState) (h : Trace) :
  let rp := fst (qemu_file_get_return_path (to_dst_file s) h) in
  let h1 := h ++ [ev_qemu_file_get_return_path (to_dst_file s)] in
  let t := emitted (colo_process_checkpoint s) h in
  (rp <> None /\
   0 <= env_file_error E (h1 ++ [ev_qemu_get_be32 rp]) /\
   decoded h1 < COLO_MESSAGE__MAX cm /\
   decoded h1 = COLO_MESSAGE_CHECKPOINT_READY cm)
  \/ (count is_send t = 0%nat /\ count is_vm_stop t = 0%nat /\
      count is_vm_start t = 0%nat /\ count is_qsb_create t = 0%nat /\
      count is_bufopen t = 0%nat).
Proof.
  cbv zeta.
  destruct (colo_process_checkpoint_run s h)
    as [(_ & ->) | (Hrp & Hsome & [(e & _ & ->) | [(Hready & _) | (Hready & _)]])].
  - right. repeat split; reflexivity.
  - right. rewrite Hrp in *.
    destruct (to_dst_file s); [repeat split; reflexivity | now cbn in Hsome].
  - left. split; [exact Hsome |].
    apply (colo_get_check_cmd_behaviour
             (fst (qemu_file_get_return_path (to_dst_file s) h))
             (COLO_MESSAGE_CHECKPOINT_READY cm)
             (h ++ [ev_qemu_file_get_return_path (to_dst_file s)])).
    exact Hready.
  - left. split; [exact Hsome |].
    apply (colo_get_check_cmd_behaviour
             (fst (qemu_file_get_return_path (to_dst_file s) h))
             (COLO_MESSAGE_CHECKPOINT_READY cm)
             (h ++ [ev_qemu_file_get_return_path (to_dst_file s)])).
    exact Hready.
Qed.

(** X12. Whatever happens, [colo_process_checkpoint] sends only
    CHECKPOINT_REQUEST, VMSTATE_SEND and VMSTATE_SIZE, the size and the
    buffer, all on the outbound channel [s->to_dst_file]; it receives only
    on the return path of that channel; and it makes none of the calls of
    the incoming side. *)
Theorem X12_primary_calls (s : MigrationState) (h : Trace) :
  Forall (primary_call_ok (to_dst_file s) (option_map return_path (to_dst_file s)))
         (emitted (colo_process_checkpoint s) h).
Proof.
  destruct (colo_process_checkpoint_run s h)
    as [(_ & ->) | (Hrp & Hsome & [(e & _ & ->) | [(_ & _ & ->) | (_ & _ & t & -> & Hok)]])];
    try rewrite Hrp in *;
    cbv [phase_setup phase_teardown get_cmd_events firstn app].
  - calls_ok.
  - destruct (to_dst_file s); [calls_ok | now cbn in Hsome].
  - destruct (to_dst_file s); [calls_ok | now cbn in Hsome].
  - destruct Hok as (Hcalls & _).
    destruct (to_dst_file s); [| now cbn in Hsome].
    repeat (apply Forall_cons; [cbn; auto 8 |]).
    apply Forall_app. split; [exact Hcalls | calls_ok].
Qed.

(** ** More on the incoming thread *)

Lemma Forall_firstn' {A : Type} (P : A -> Prop) n (l : list A) :
  Forall P l -> Forall P (firstn n l).
Proof.
  intros H. revert n. induction H as [|x l Hx _ IH]; intros [|n]; cbn; auto.
Qed.

Lemma Forall_concat_repeat {A : Type} (P : A -> Prop) (l : list A) m :
  Forall P l -> Forall P (List.concat (repeat l m)).
Proof.
  intros H. induction m as [|m IH]; cbn; [constructor | now apply Forall_app].
Qed.

Lemma lock_scan_concat_repeat held (l : Trace) m :
  lock_scan held l = Some held ->
  lock_scan held (List.concat (repeat l m)) = Some held.
Proof.
  intros H. induction m as [|m IH]; cbn [repeat List.concat]; [reflexivity|].
  now rewrite lock_scan_app, H.
Qed.

(** X9. [colo_process_incoming_thread], which runs without the iothread
    lock, takes it exactly around [colo_release_ram_cache] and returns
    without it: lock and unlock alternate, and nothing is read from,
    written to or flushed on a channel while the lock is held. *)
Theorem X9_secondary_lock_discipline (mis : MigrationIncomingState) (h : Trace) :
  lock_scan false (emitted (colo_process_incoming_thread mis) h) = Some false
  /\ filter (fun e => match e with
                      | ev_qemu_mutex_lock_iothread | ev_qemu_mutex_unlock_iothread
                      | ev_colo_release_ram_cache => true
                      | _ => false
                      end)
            (emitted (colo_process_incoming_thread mis) h)
     = [ev_qemu_mutex_lock_iothread; ev_colo_release_ram_cache;
        ev_qemu_mutex_unlock_iothread].
Proof.
  pose proof (colo_process_incoming_thread_outcome mis h) as Hout.
  inversion Hout as [Hrp Ht | rp Hrp Ht | rp n e Hrp Hn Ht
                    | rp m n report Hrp Hm Hn Hrep Ht];
    clear Hout; symmetry in Ht; apply run_emitted in Ht; destruct Ht as [_ Ht];
    try (destruct (return_path_some _ _ _ Hrp) as (f & Hf & ->)).
  - rewrite Ht. split; reflexivity.
  - rewrite Ht. split; reflexivity.
  - rewrite Ht. cbn in Hn. destruct Hn as [<- | [<- | []]]; split; reflexivity.
  - set (steps := responder_steps (with_return_path mis (Some (return_path f)))).
    change (emitted (colo_process_incoming_thread mis) h
            = responder_prologue mis
                ++ List.concat (repeat steps m)
                ++ firstn n steps
                ++ report
                ++ responder_teardown (with_return_path mis (Some (return_path f))))
      in Ht.
    rewrite Ht.
    assert (Hsteps : lock_scan false steps = Some false) by reflexivity.
    assert (Hpart : lock_scan false (firstn n steps) = Some false).
    { cbn in Hn. repeat (destruct Hn as [<- | Hn]; [reflexivity |]). destruct Hn. }
    assert (Hrepl : lock_scan false report = Some false).
    { destruct Hrep as [[-> _] | [e ->]]; reflexivity. }
    split.
    + rewrite lock_scan_app.
      replace (lock_scan false (responder_prologue mis)) with (Some false) by reflexivity.
      rewrite lock_scan_app, (lock_scan_concat_repeat false steps m Hsteps).
      rewrite lock_scan_app, Hpart, lock_scan_app, Hrepl. reflexivity.
    + rewrite !filter_app.
      match goal with |- context [filter ?p (List.concat (repeat steps m))] =>
        assert (Hnone : filter p (List.concat (repeat steps m)) = []);
        [apply length_zero_iff_nil; apply (none_concat_repeat p steps m); reflexivity |];
        assert (Hnone' : filter p (firstn n steps) = []);
        [apply length_zero_iff_nil; apply (none_firstn p n steps); reflexivity |];
        assert (Hnone'' : filter p report = []);
        [destruct Hrep as [[-> _] | [e ->]]; reflexivity |]
      end.
      rewrite Hnone, Hnone', Hnone''. reflexivity.
Qed.

(** X13. Whatever happens, [colo_process_incoming_thread] sends only
    CHECKPOINT_READY, CHECKPOINT_REPLY, VMSTATE_RECEIVED and
    VMSTATE_LOADED, on the return path of its inbound channel, and never a
    value or a buffer; it receives only on the inbound channel; and it
    never stops or starts the guest, saves its state or touches a
    [QEMUSizedBuffer]. *)
Theorem X13_secondary_calls (mis : MigrationIncomingState) (h : Trace) :
  Forall (secondary_call_ok (from_src_file mis)
                            (option_map return_path (from_src_file mis)))
         (emitted (colo_process_incoming_thread mis) h).
Proof.
  pose proof (colo_process_incoming_thread_outcome mis h) as Hout.
  inversion Hout as [Hrp Ht | rp Hrp Ht | rp n e Hrp Hn Ht
                    | rp m n report Hrp Hm Hn Hrep Ht];
    clear Hout; symmetry in Ht; apply run_emitted in Ht; destruct Ht as [_ Ht];
    try (destruct (return_path_some _ _ _ Hrp) as (f & Hf & ->)).
  - rewrite Ht.
    cbv [responder_prologue responder_teardown with_return_path to_src_file
         put_cmd_events firstn app]. calls_ok.
  - rewrite Ht.
    cbv [responder_prologue responder_teardown with_return_path to_src_file
         put_cmd_events firstn app]. calls_ok.
  - rewrite Ht. cbn in Hn. destruct Hn as [<- | [<- | []]];
      cbv [responder_prologue responder_teardown with_return_path to_src_file
           put_cmd_events firstn app]; calls_ok.
  - change (emitted (colo_process_incoming_thread mis) h
            = responder_prologue mis
                ++ List.concat (repeat (responder_steps
                                          (with_return_path mis (Some (return_path f)))) m)
                ++ firstn n (responder_steps (with_return_path mis (Some (return_path f))))
                ++ report
                ++ responder_teardown (with_return_path mis (Some (return_path f))))
      in Ht.
    rewrite Ht.
    assert (Hsteps : Forall (secondary_call_ok (from_src_file mis)
                               (option_map return_path (from_src_file mis)))
                            (responder_steps (with_return_path mis (Some (return_path f))))).
    { rewrite Hf.
      cbv [responder_steps with_return_path to_src_file from_src_file option_map
           put_cmd_events get_cmd_events app]. calls_ok. }
    rewrite !Forall_app. repeat split.
    + cbv [responder_prologue put_cmd_events app]. calls_ok.
    + now apply Forall_concat_repeat.
    + now apply Forall_firstn'.
    + destruct Hrep as [[-> _] | [e ->]]; calls_ok.
    + cbv [responder_teardown with_return_path to_src_file app]. calls_ok.
Qed.

Lemma colo_process_checkpoint_result s h :
  to_dst_file (result (colo_process_checkpoint s) h) = to_dst_file s
  /\ from_dst_file (result (colo_process_checkpoint s) h)
     = fst (qemu_file_get_return_path (to_dst_file s) h).
Proof.
  unfold result, colo_process_checkpoint, colo_process_checkpoint_out.
  unfold_monad. destruct s as [to from blk shared].
  cbn [to_dst_file from_dst_file params_blk params_shared].
  destruct to as [f|]; [| split; reflexivity].
  destruct (env_return_path E h); [| split; reflexivity].
  cbv beta iota.
  match goal with |- context [colo_get_check_cmd ?f0 ?c ?h0] =>
    destruct (colo_get_check_cmd f0 c h0) as [[e|] h1] end;
    [split; reflexivity |].
  match goal with |- context [env_qsb_create E ?h0] =>
    destruct (env_qsb_create E h0) end; [| split; reflexivity].
  match goal with |- context [colo_process_checkpoint_loop ?n ?s0 ?b ?h0] =>
    destruct (colo_process_checkpoint_loop_ok n s0 b h0)
      as (s' & t & Hloop & _ & Hfrom & Hto);
    rewrite Hloop
  end.
  cbn [to_dst_file from_dst_file] in Hfrom, Hto. rewrite Hfrom. cbn [fst].
  split; assumption.
Qed.

(** X14. [colo_process_checkpoint] leaves [s->to_dst_file] as it was and
    returns with [s->rp_state.from_dst_file] holding what
    [qemu_file_get_return_path] returned: when that is a file, its last
    call has closed this file, and the field still names it. *)
Theorem X14_phase_leaves_closed_return_path (s : MigrationState) (h : Trace) :
  let rp := fst (qemu_file_get_return_path (to_dst_file s) h) in
  let s' := result (colo_process_checkpoint s) h in
  to_dst_file s' = to_dst_file s
  /\ from_dst_file s' = rp
  /\ match rp with
     | Some _ =>
         last (emitted (colo_process_checkpoint s) h) ev_vm_start = ev_qemu_fclose rp
     | None => count is_fclose (emitted (colo_process_checkpoint s) h) = 0%nat
     end.
Proof.
  cbv zeta. destruct (colo_process_checkpoint_result s h) as [Hto Hfrom].
  split; [exact Hto | split; [exact Hfrom |]].
  destruct (colo_process_checkpoint_run s h)
    as [(Hnone & ->) | (Hrp & Hsome & [(e & _ & ->) | [(_ & _ & ->) | (_ & _ & t & -> & _)]])].
  - rewrite Hnone. reflexivity.
  - destruct (fst (qemu_file_get_return_path (to_dst_file s) h)) as [rp|]; [| congruence].
    unfold phase_teardown. rewrite !app_assoc. apply last_last.
  - destruct (fst (qemu_file_get_return_path (to_dst_file s) h)) as [rp|]; [| congruence].
    unfold phase_teardown. rewrite !app_assoc. apply last_last.
  - destruct (fst (qemu_file_get_return_path (to_dst_file s) h)) as [rp|]; [| congruence].
    unfold phase_teardown. rewrite !app_assoc. apply last_last.
Qed.


(** ** Each step by what the environment answers *)

Lemma colo_put_cmd_cases f cmd h :
  (send_ok f cmd h /\ colo_put_cmd f cmd h = (None, h ++ put_cmd_events f cmd))
  \/ (~ send_ok f cmd h /\
      exists e, colo_put_cmd f cmd h
                = (Some e, h ++ firstn (sent_calls cmd) (put_cmd_events f cmd))).
Proof.
  unfold send_ok, sent_calls.
  destruct (colo_put_cmd_outcome f cmd h) as [Hmax | r Hmax Hr Hneg | Hmax Hpos].
  - right. split; [lia |]. eexists.
    destruct (Z.ltb_spec cmd (COLO_MESSAGE__MAX cm)); [lia |].
    cbn [firstn]. rewrite app_nil_r. reflexivity.
  - right. split; [lia |]. eexists.
    destruct (Z.ltb_spec cmd (COLO_MESSAGE__MAX cm)); [| lia]. reflexivity.
  - left. split; [split; assumption | reflexivity].
Qed.

Lemma colo_get_check_cmd_cases f expect_cmd h :
  (recv_ok f expect_cmd h /\
   colo_get_check_cmd f expect_cmd h = (None, h ++ get_cmd_events f))
  \/ (~ recv_ok f expect_cmd h /\
      exists e, colo_get_check_cmd f expect_cmd h = (Some e, h ++ get_cmd_events f)).
Proof.
  unfold recv_ok, colo_get_check_cmd, bind.
  pose proof (colo_get_cmd_outcome f h) as H.
  destruct (colo_get_cmd f h) as [[cmd err] h'].
  inversion H as [r Hr Hneg | Hpos Hmax | Hpos Hmax]; subst; clear H; unfold ret.
  - right. split; [lia |]. eexists. reflexivity.
  - right. split; [lia |]. eexists. reflexivity.
  - destruct (Z.eqb_spec (decoded h) expect_cmd) as [Heq | Hne]; cbn [negb].
    + left. split; [repeat split; assumption | reflexivity].
    + right. split; [tauto |]. eexists. reflexivity.
Qed.

Lemma colo_wait_handle_cmd_cases f h :
  (recv_ok f (COLO_MESSAGE_CHECKPOINT_REQUEST cm) h /\
   colo_wait_handle_cmd f h = (Some 1, None, h ++ get_cmd_events f))
  \/ (~ recv_ok f (COLO_MESSAGE_CHECKPOINT_REQUEST cm) h /\
      exists request e,
        colo_wait_handle_cmd f h = (request, Some e, h ++ get_cmd_events f) /\
        (0 <= env_file_error E (h ++ [ev_qemu_get_be32 f]) ->
         decoded h < COLO_MESSAGE__MAX cm ->
         e = error_setg "Got unknown COLO command: %d" [ArgD (decoded h)])).
Proof.
  unfold recv_ok. rewrite colo_wait_handle_cmd_run.
  pose proof (colo_get_cmd_outcome f h) as H.
  destruct (colo_get_cmd f h) as [[cmd err] h'].
  inversion H as [r Hr Hneg | Hpos Hmax | Hpos Hmax]; subst; clear H.
  - right. split; [lia |]. eexists _, _. split; [reflexivity | lia].
  - right. split; [lia |]. eexists _, _. split; [reflexivity | lia].
  - destruct (Z.eqb_spec (decoded h) (COLO_MESSAGE_CHECKPOINT_REQUEST cm)) as [Heq | Hne].
    + left. split; [repeat split; assumption | reflexivity].
    + right. split; [tauto |]. eexists _, _. split; [reflexivity | reflexivity].
Qed.

(** The next step of a run, by whether it succeeds. *)
Ltac next_case Hok :=
  flatten_trace;
  cbn [to_dst_file from_dst_file params_blk params_shared from_src_file to_src_file];
  let e := fresh "e" in
  let Hrun := fresh "Hrun" in
  match goal with
  | |- context [colo_put_cmd ?f ?c ?h0] =>
      destruct (colo_put_cmd_cases f c h0) as [(Hok & Hrun) | (Hok & e & Hrun)]
  | |- context [colo_get_check_cmd ?f ?c ?h0] =>
      destruct (colo_get_check_cmd_cases f c h0) as [(Hok & Hrun) | (Hok & e & Hrun)]
  end;
  rewrite Hrun; clear Hrun; cbv beta iota.

(** One pass through the loop body of the incoming thread: it is complete
    exactly when every step succeeds, and otherwise leaves the loop with
    an error after the calls of the first step that fails. *)
Lemma colo_process_incoming_loop_body_cases mis h :
  let steps := responder_steps mis in
  let run := colo_process_incoming_loop_body mis h in
  (pass_complete mis h /\ run = (None, h ++ steps))
  \/ (~ pass_complete mis h /\
      exists e n,
        run = (Some (exit_out (Some e)), h ++ firstn n steps) /\
        pass_fails mis h n e).
Proof.
  cbv zeta. unfold pass_fails, pass_complete, colo_process_incoming_loop_body.
  unfold_monad.
  destruct (colo_wait_handle_cmd_cases (from_src_file mis) h)
    as [(H1 & ->) | (H1 & request & e & -> & He)]; cbv beta iota.
  2: { right. split; [tauto |]. exists e, 2%nat. split; [reflexivity |]. left. auto. }
  cbn [Z.eqb].
  next_case H2.
  2: { right. split; [tauto |]. exists e.
       exists (2 + sent_calls (COLO_MESSAGE_CHECKPOINT_REPLY cm))%nat.
       split; [| right; split; [exact H1 | left; split; [exact H2 | reflexivity]]].
       unfold sent_calls.
       destruct (COLO_MESSAGE_CHECKPOINT_REPLY cm <? COLO_MESSAGE__MAX cm);
         rewrite <- ?app_assoc; reflexivity. }
  next_case H3.
  2: { right. split; [tauto |]. exists e, 7%nat.
       split; [rewrite <- ?app_assoc; reflexivity |].
       right; split; [exact H1 | right; split; [exact H2 | left; split; [exact H3 | reflexivity]]]. }
  next_case H4.
  2: { right. split; [tauto |]. exists e.
       exists (7 + sent_calls (COLO_MESSAGE_VMSTATE_RECEIVED cm))%nat.
       split; [| right; split; [exact H1 | right; split; [exact H2 |
                 right; split; [exact H3 | left; split; [exact H4 | reflexivity]]]]].
       unfold sent_calls.
       destruct (COLO_MESSAGE_VMSTATE_RECEIVED cm <? COLO_MESSAGE__MAX cm);
         rewrite <- ?app_assoc; reflexivity. }
  next_case H5.
  2: { right. split; [tauto |]. exists e.
       exists (10 + sent_calls (COLO_MESSAGE_VMSTATE_LOADED cm))%nat.
       split; [| right; split; [exact H1 | right; split; [exact H2 |
                 right; split; [exact H3 | right; split; [exact H4 |
                 split; [exact H5 | reflexivity]]]]]].
       unfold sent_calls.
       destruct (COLO_MESSAGE_VMSTATE_LOADED cm <? COLO_MESSAGE__MAX cm);
         rewrite <- ?app_assoc; reflexivity. }
  left. flatten_trace. split; [| reflexivity].
  repeat split; first [apply H1 | apply H2 | apply H3 | apply H4 | apply H5].
Qed.

(** The loop of the incoming thread: the passes before the [m]-th are
    complete, and either the test ends the loop after [rounds] passes or
    the [m]-th pass fails and leaves the loop with its error. *)
Lemma colo_process_incoming_loop_cases rounds :
  forall mis h,
  let steps := responder_steps mis in
  let start m := h ++ List.concat (repeat steps m) in
  exists m,
    (m <= rounds)%nat /\
    (forall j, (j < m)%nat -> pass_complete mis (start j)) /\
    (m = rounds /\
     colo_process_incoming_loop rounds mis h = (exit_out None, start m)
     \/ (m < rounds)%nat /\
        ~ pass_complete mis (start m) /\
        exists e n,
          pass_fails mis (start m) n e /\
          colo_process_incoming_loop rounds mis h
          = (exit_out (Some e), start m ++ firstn n steps)).
Proof.
  induction rounds as [|k IH]; intros mis h; cbv zeta.
  - exists 0%nat. split; [lia |]. split; [intros j Hj; lia |].
    left. split; [reflexivity |]. cbn. now rewrite app_nil_r.
  - cbn [colo_process_incoming_loop]. unfold bind.
    destruct (colo_process_incoming_loop_body_cases mis h)
      as [(Hok & Hrun) | (Hno & e & n & Hrun & Hfail)].
    + rewrite Hrun.
      destruct (IH mis (h ++ responder_steps mis)) as (m & Hm & Hpass & Hend).
      cbv zeta in Hpass, Hend.
      exists (S m). split; [lia |]. split.
      * intros [|j] Hj.
        -- cbn [repeat List.concat]. now rewrite app_nil_r.
        -- cbn [repeat List.concat]. rewrite app_assoc. apply Hpass. lia.
      * cbn [repeat List.concat]. rewrite !app_assoc.
        destruct Hend as [(-> & Hloop) | (Hlt & Hnot & e & n & Hfail & Hloop)].
        -- left. split; [reflexivity | exact Hloop].
        -- right. split; [lia |]. split; [exact Hnot |].
           exists e, n. split; [exact Hfail | exact Hloop].
    + exists 0%nat. split; [lia |]. split; [intros j Hj; lia |].
      right. split; [lia |]. cbn [repeat List.concat]. rewrite !app_nil_r.
      split; [exact Hno |]. exists e, n.
      rewrite Hrun. split; [exact Hfail | reflexivity].
Qed.

(** The incoming thread, by what its setup finds; [tl] are the calls of
    its loop and [x] the error the loop left. *)
Lemma colo_process_incoming_thread_cases mis h :
  let pro := responder_prologue mis in
  let rp := fst (qemu_file_get_return_path (from_src_file mis) (h ++ firstn 1 pro)) in
  let mis' := with_return_path mis rp in
  let cache := env_init_ram_cache E (h ++ firstn 3 pro) in
  let ready := send_ok rp (COLO_MESSAGE_CHECKPOINT_READY cm) (h ++ firstn 4 pro) in
  let run := colo_process_incoming_thread mis h in
  (rp = None /\
   run = (thread_returned mis',
          h ++ firstn 2 pro
            ++ [ev_error_report "colo incoming thread: Open QEMUFile to_src_file failed"]
            ++ responder_teardown mis'))
  \/ (rp <> None /\ rp = option_map return_path (from_src_file mis) /\
      (cache < 0 /\
       run = (thread_returned mis',
              h ++ firstn 4 pro
                ++ [ev_error_report "Failed to initialize ram cache"]
                ++ responder_teardown mis')
       \/ 0 <= cache /\
          (~ ready /\
           (exists e,
              run = (thread_returned mis',
                     h ++ firstn (4 + sent_calls (COLO_MESSAGE_CHECKPOINT_READY cm)) pro
                       ++ [ev_error_report_err e]
                       ++ responder_teardown mis'))
           \/ ready /\
              run = (match result (colo_process_incoming_loop (env_colo_rounds E) mis')
                             (h ++ pro) with
                     | exit_out _ => thread_returned mis'
                     | exit_assert_failed => thread_aborted
                     end,
                     snd (colo_process_incoming_loop (env_colo_rounds E) mis' (h ++ pro))
                       ++ match result (colo_process_incoming_loop (env_colo_rounds E) mis')
                                  (h ++ pro) with
                          | exit_out local_err =>
                              (if local_err is Some e then [ev_error_report_err e] else [])
                              ++ responder_teardown mis'
                          | exit_assert_failed => []
                          end)))).
Proof.
  cbv zeta. unfold result, colo_process_incoming_thread, colo_process_incoming_thread_out.
  unfold_monad. destruct mis as [from to].
  cbn [from_src_file to_src_file].
  set (mis := mkMigrationIncomingState from to).
  destruct from as [f|].
  2: { left. split; [reflexivity |]. flatten_trace. reflexivity. }
  change (h ++ firstn 1 (responder_prologue mis))
    with (h ++ [ev_migrate_set_state MIGRATION_STATUS_ACTIVE MIGRATION_STATUS_COLO]).
  rewrite <- ?app_assoc. cbn [app].
  destruct (env_return_path E
              (h ++ [ev_migrate_set_state MIGRATION_STATUS_ACTIVE MIGRATION_STATUS_COLO]))
    eqn:Hrp.
  2: { left. cbn [fst]. split; [reflexivity |]. flatten_trace. reflexivity. }
  right. cbn [fst option_map]. split; [discriminate |]. split; [reflexivity |].
  change (h ++ firstn 3 (responder_prologue mis))
    with (h ++ [ev_migrate_set_state MIGRATION_STATUS_ACTIVE MIGRATION_STATUS_COLO;
                ev_qemu_file_get_return_path (Some f);
                ev_qemu_file_set_blocking (Some f) true]).
  flatten_trace.
  match goal with |- context [env_init_ram_cache E ?h0 <? 0] =>
    destruct (Z.ltb_spec (env_init_ram_cache E h0) 0) as [Hneg | Hpos] end.
  1: { left. split; [exact Hneg |]. flatten_trace. reflexivity. }
  right. split; [exact Hpos |].
  change (h ++ firstn 4 (responder_prologue mis))
    with (h ++ [ev_migrate_set_state MIGRATION_STATUS_ACTIVE MIGRATION_STATUS_COLO;
                ev_qemu_file_get_return_path (Some f);
                ev_qemu_file_set_blocking (Some f) true;
                ev_colo_init_ram_cache]).
  next_case Hready.
  2: { left. split; [exact Hready |]. exists e. unfold sent_calls.
       destruct (COLO_MESSAGE_CHECKPOINT_READY cm <? COLO_MESSAGE__MAX cm);
         flatten_trace; reflexivity. }
  right. split; [exact Hready |].
  change (h ++ responder_prologue mis)
    with (h ++ [ev_migrate_set_state MIGRATION_STATUS_ACTIVE MIGRATION_STATUS_COLO;
                ev_qemu_file_get_return_path (Some f);
                ev_qemu_file_set_blocking (Some f) true;
                ev_colo_init_ram_cache]
            ++ put_cmd_events (Some (return_path f)) (COLO_MESSAGE_CHECKPOINT_READY cm)).
  flatten_trace. unfold with_return_path, mis.
  unfold put_cmd_events. cbn [app from_src_file to_src_file].
  match goal with |- context [colo_process_incoming_loop ?r ?mis0 ?h0] =>
    destruct (colo_process_incoming_loop r mis0 h0) as [[[e|]|] hl] end;
    cbn [fst snd]; rewrite <- ?app_assoc, ?app_nil_r; reflexivity.
Qed.

(** A run of the incoming thread whose setup succeeds: the prologue, [m]
    complete passes, and then the teardown when the test ended the loop,
    or the calls of the pass that failed, the report of its error and the
    teardown. *)
Lemma colo_process_incoming_thread_loop mis h :
  let pro := responder_prologue mis in
  let rp := fst (qemu_file_get_return_path (from_src_file mis) (h ++ firstn 1 pro)) in
  let mis' := with_return_path mis rp in
  let steps := responder_steps mis' in
  let start m := (h ++ pro) ++ List.concat (repeat steps m) in
  let run := colo_process_incoming_thread mis in
  rp <> None ->
  0 <= env_init_ram_cache E (h ++ firstn 3 pro) ->
  send_ok rp (COLO_MESSAGE_CHECKPOINT_READY cm) (h ++ firstn 4 pro) ->
  result run h = thread_returned mis' /\
  exists m,
    (m <= env_colo_rounds E)%nat /\
    (forall j, (j < m)%nat -> pass_complete mis' (start j)) /\
    (m = env_colo_rounds E /\
     emitted run h
     = pro ++ List.concat (repeat steps m) ++ responder_teardown mis'
     \/ (m < env_colo_rounds E)%nat /\
        ~ pass_complete mis' (start m) /\
        exists n e,
          pass_fails mis' (start m) n e /\
          emitted run h
          = pro ++ List.concat (repeat steps m) ++ firstn n steps
              ++ [ev_error_report_err e] ++ responder_teardown mis').
Proof.
  cbv zeta. intros Hrp Hcache Hready.
  destruct (colo_process_incoming_thread_cases mis h)
    as [(Hnone & _) | (_ & _ & [(Hneg & _) | (_ & [(Hno & _) | (_ & Hrun)])])];
    [congruence | lia | tauto |].
  unfold result in *.
  destruct (colo_process_incoming_loop_cases (env_colo_rounds E)
              (with_return_path mis
                 (fst (qemu_file_get_return_path (from_src_file mis)
                         (h ++ firstn 1 (responder_prologue mis)))))
              (h ++ responder_prologue mis))
    as (m & Hm & Hpass & [(Hall & Hloop) | (Hlt & Hnot & e & n & Hfail & Hloop)]);
    rewrite Hloop in Hrun; cbn [fst snd] in Hrun; rewrite Hrun; cbn [fst];
    (split; [reflexivity |]); exists m; (split; [exact Hm |]);
    (split; [exact Hpass |]).
  - left. split; [exact Hall |]. apply emitted_snd. rewrite Hrun. cbn [snd app].
    now rewrite <- ?app_assoc.
  - right. split; [exact Hlt |]. split; [exact Hnot |]. exists n, e.
    split; [exact Hfail |]. apply emitted_snd. rewrite Hrun. cbn [snd].
    now rewrite <- ?app_assoc.
Qed.

(** C4. Every run of [colo_process_incoming_thread] is determined by what
    its calls find.  Before the loop it sets the status, obtains the
    return path from the inbound channel, makes that channel blocking,
    initialises the RAM cache and sends CHECKPOINT_READY on the return
    path, in this order ([responder_prologue]): when the return path is
    not obtained it makes only the first two of these calls, when the
    cache cannot be initialised only the first four, and when
    CHECKPOINT_READY does not go through it does not enter the loop; each
    time one error is reported and the teardown follows.  Otherwise the
    loop runs: while the status allows, each pass receives a command; if
    that is CHECKPOINT_REQUEST the pass goes on to send CHECKPOINT_REPLY,
    receive VMSTATE_SEND and send VMSTATE_RECEIVED and then VMSTATE_LOADED
    ([responder_steps]), and the next pass starts; the first pass in which
    a step fails ends the loop after the calls of that step, so that any
    other command received where CHECKPOINT_REQUEST is due ends it after
    the two calls of the receive, nothing being sent, with the error
    "Got unknown COLO command" when the ordinal is a valid one; the error
    is reported once, and the teardown follows. *)
Theorem C4_responder_order (mis : MigrationIncomingState) (h : Trace) :
  let pro := responder_prologue mis in
  let rp := fst (qemu_file_get_return_path (from_src_file mis) (h ++ firstn 1 pro)) in
  let mis' := with_return_path mis rp in
  let cache := env_init_ram_cache E (h ++ firstn 3 pro) in
  let ready := send_ok rp (COLO_MESSAGE_CHECKPOINT_READY cm) (h ++ firstn 4 pro) in
  let steps := responder_steps mis' in
  let start m := (h ++ pro) ++ List.concat (repeat steps m) in
  let t := emitted (colo_process_incoming_thread mis) h in
  (rp = None ->
   t = firstn 2 pro
         ++ [ev_error_report "colo incoming thread: Open QEMUFile to_src_file failed"]
         ++ responder_teardown mis')
  /\ (rp <> None -> cache < 0 ->
      t = firstn 4 pro
            ++ [ev_error_report "Failed to initialize ram cache"]
            ++ responder_teardown mis')
  /\ (rp <> None -> 0 <= cache -> ~ ready ->
      exists e,
        t = firstn (4 + sent_calls (COLO_MESSAGE_CHECKPOINT_READY cm)) pro
              ++ [ev_error_report_err e]
              ++ responder_teardown mis')
  /\ (rp <> None -> 0 <= cache -> ready ->
      exists m,
        (m <= env_colo_rounds E)%nat /\
        (forall j, (j < m)%nat -> pass_complete mis' (start j)) /\
        (m = env_colo_rounds E /\
         t = pro ++ List.concat (repeat steps m) ++ responder_teardown mis'
         \/ (m < env_colo_rounds E)%nat /\
            ~ pass_complete mis' (start m) /\
            exists n e,
              pass_fails mis' (start m) n e /\
              t = pro ++ List.concat (repeat steps m) ++ firstn n steps
                    ++ [ev_error_report_err e] ++ responder_teardown mis')).
Proof.
  cbv zeta. repeat split.
  - intros Hnone.
    destruct (colo_process_incoming_thread_cases mis h)
      as [(_ & Hrun) | (Hsome & _)]; [| congruence].
    now apply emitted_snd; rewrite Hrun.
  - intros Hsome Hneg.
    destruct (colo_process_incoming_thread_cases mis h)
      as [(Hnone & _) | (_ & _ & [(_ & Hrun) | (Hpos & _)])]; [congruence | | lia].
    now apply emitted_snd; rewrite Hrun.
  - intros Hsome Hpos Hno.
    destruct (colo_process_incoming_thread_cases mis h)
      as [(Hnone & _) | (_ & _ & [(Hneg & _) | (_ & [(_ & e & Hrun) | (Hyes & _)])])];
      [congruence | lia | | tauto].
    exists e. now apply emitted_snd; rewrite Hrun.
  - intros Hsome Hpos Hyes.
    exact (proj2 (colo_process_incoming_thread_loop mis h Hsome Hpos Hyes)).
Qed.

(** X16. [colo_process_incoming_thread] reports nothing exactly when its
    setup succeeds (the return path is obtained, the RAM cache is
    initialised and CHECKPOINT_READY goes through) and every pass that the
    status allows is complete: then the loop is ended by its test and the
    run is the prologue, that many complete passes and the teardown.  In
    every other run, whichever step fails, it reports exactly one
    error. *)
Theorem X16_secondary_reports_every_failure (mis : MigrationIncomingState)
    (h : Trace) :
  let pro := responder_prologue mis in
  let rp := fst (qemu_file_get_return_path (from_src_file mis) (h ++ firstn 1 pro)) in
  let mis' := with_return_path mis rp in
  let steps := responder_steps mis' in
  let setup_ok :=
    rp <> None /\
    0 <= env_init_ram_cache E (h ++ firstn 3 pro) /\
    send_ok rp (COLO_MESSAGE_CHECKPOINT_READY cm) (h ++ firstn 4 pro) in
  let all_complete :=
    forall j, (j < env_colo_rounds E)%nat ->
      pass_complete mis' ((h ++ pro) ++ List.concat (repeat steps j)) in
  let t := emitted (colo_process_incoming_thread mis) h in
  (setup_ok /\ all_complete ->
   count is_report t = 0%nat /\
   t = pro ++ List.concat (repeat steps (env_colo_rounds E)) ++ responder_teardown mis')
  /\ (~ (setup_ok /\ all_complete) -> count is_report t = 1%nat).
Proof.
  cbv zeta.
  assert (Hpro : count is_report (responder_prologue mis) = 0%nat) by reflexivity.
  assert (Hsteps : forall mis0, count is_report (responder_steps mis0) = 0%nat)
    by reflexivity.
  assert (Hdown : forall mis0, count is_report (responder_teardown mis0) = 0%nat)
    by (intros [from [to|]]; reflexivity).
  destruct (colo_process_incoming_thread_cases mis h)
    as [(Hnone & Hrun) | (Hsome & _ & [(Hneg & Hrun) | (Hpos & [(Hno & e & Hrun) | (Hyes & _)])])].
  - apply (f_equal snd), emitted_snd in Hrun.
    split; [intros ((Hsome & _) & _); congruence | intros _].
    rewrite Hrun, !count_app, Hdown, (none_firstn _ _ _ Hpro). reflexivity.
  - apply (f_equal snd), emitted_snd in Hrun.
    split; [intros ((_ & Hpos & _) & _); lia | intros _].
    rewrite Hrun, !count_app, Hdown, (none_firstn _ _ _ Hpro). reflexivity.
  - apply (f_equal snd), emitted_snd in Hrun.
    split; [intros ((_ & _ & Hyes) & _); tauto | intros _].
    rewrite Hrun, !count_app, Hdown, (none_firstn _ _ _ Hpro). reflexivity.
  - destruct (colo_process_incoming_thread_loop mis h Hsome Hpos Hyes)
      as (_ & m & Hm & Hpass & [(-> & Ht) | (Hlt & Hnot & n & e & _ & Ht)]);
      rewrite Ht.
    + split; [intros _ | intros Hn; exfalso; apply Hn; tauto].
      split; [| reflexivity].
      rewrite !count_app, Hpro, Hdown, (none_concat_repeat _ _ _ (Hsteps _)).
      reflexivity.
    + split; [intros (_ & Hall); exfalso; apply Hnot, Hall, Hlt | intros _].
      rewrite !count_app, Hpro, Hdown, (none_concat_repeat _ _ _ (Hsteps _)),
        (none_firstn _ _ _ (Hsteps _)).
      reflexivity.
Qed.

(** ** The primary phase, by what its setup finds *)

Lemma colo_process_checkpoint_loop_runs rounds :
  forall s buffer h,
    snd (colo_process_checkpoint_loop rounds s buffer h)
    = h ++ List.concat (transaction_runs rounds s buffer h)
    /\ Forall (transaction_trace buffer) (transaction_runs rounds s buffer h)
    /\ (List.length (transaction_runs rounds s buffer h) <= rounds)%nat.
Proof.
  induction rounds as [|n IH]; intros s buffer h.
  - cbn. rewrite app_nil_r. auto.
  - cbn [colo_process_checkpoint_loop transaction_runs]. unfold bind.
    destruct (colo_do_checkpoint_transaction_trace s buffer h)
      as (r & s1 & t & Hrun & Ht & _).
    rewrite (proj2 (run_emitted _ _ _ _ Hrun)). rewrite Hrun.
    destruct (r <? 0).
    + cbn. rewrite app_nil_r. split; [reflexivity |]. split; [auto | lia].
    + destruct (IH s1 buffer (h ++ t)) as (Hsnd & Hall & Hlen).
      rewrite Hsnd. cbn [List.concat List.length]. rewrite app_assoc.
      split; [reflexivity |]. split; [auto | lia].
Qed.

Lemma colo_process_checkpoint_cases s h :
  let setup := phase_setup s in
  let rp := fst (qemu_file_get_return_path (to_dst_file s) h) in
  let ready := recv_ok rp (COLO_MESSAGE_CHECKPOINT_READY cm) (h ++ firstn 1 setup) in
  let created := env_qsb_create E (h ++ firstn 3 setup) = true in
  let s1 := mkMigrationState (to_dst_file s) rp (params_blk s) (params_shared s) in
  let txs := transaction_runs (env_colo_rounds E) s1 (Some colo_buffer) (h ++ setup) in
  let t := emitted (colo_process_checkpoint s) h in
  (rp = None /\
   t = firstn 1 setup
         ++ [ev_error_report "Open QEMUFile from_dst_file failed"]
         ++ phase_teardown None None)
  \/ (rp <> None /\ is_fclose_return_path (ev_qemu_fclose rp) = true /\
      (~ ready /\
       (exists e,
          t = firstn 3 setup ++ [ev_error_report_err e] ++ phase_teardown None rp)
       \/ ready /\
          (~ created /\
           t = firstn 4 setup
                 ++ [ev_error_report "Failed to allocate colo buffer!"]
                 ++ phase_teardown None rp
           \/ created /\
              t = setup ++ List.concat txs ++ phase_teardown (Some colo_buffer) rp))).
Proof.
  cbv zeta. unfold emitted, colo_process_checkpoint, colo_process_checkpoint_out.
  unfold_monad. destruct s as [to from blk shared].
  cbn [to_dst_file from_dst_file params_blk params_shared].
  set (s := mkMigrationState to from blk shared).
  destruct to as [f|].
  2: { left. split; [reflexivity |]. now skip_history. }
  destruct (env_return_path E h) eqn:Hrp.
  2: { left. split; [reflexivity |]. now skip_history. }
  right. cbn [option_map fst]. split; [discriminate |]. split; [reflexivity |].
  change (h ++ firstn 1 (phase_setup s))
    with (h ++ [ev_qemu_file_get_return_path (Some f)]).
  destruct (colo_get_check_cmd_cases (Some (return_path f))
              (COLO_MESSAGE_CHECKPOINT_READY cm)
              (h ++ [ev_qemu_file_get_return_path (Some f)]))
    as [(Hready & ->) | (Hready & e & ->)]; cbv beta iota.
  2: { left. split; [exact Hready |]. exists e. now skip_history. }
  right. split; [exact Hready |]. rewrite <- app_assoc.
  change (h ++ firstn 3 (phase_setup s))
    with (h ++ [ev_qemu_file_get_return_path (Some f)]
            ++ get_cmd_events (Some (return_path f))).
  destruct (env_qsb_create E
              (h ++ [ev_qemu_file_get_return_path (Some f)]
                 ++ get_cmd_events (Some (return_path f)))) eqn:Hbuf.
  2: { left. split; [discriminate |]. now skip_history. }
  right. split; [reflexivity |].
  change (h ++ phase_setup s)
    with (h ++ [ev_qemu_file_get_return_path (Some f)]
            ++ get_cmd_events (Some (return_path f))
            ++ [ev_qsb_create COLO_BUFFER_BASE_SIZE;
                ev_qemu_mutex_lock_iothread; ev_vm_start; ev_qemu_mutex_unlock_iothread]).
  flatten_trace.
  match goal with |- context [colo_process_checkpoint_loop ?n ?s0 ?b ?h0] =>
    destruct (colo_process_checkpoint_loop_ok n s0 b h0)
      as (s' & t & Hloop & _ & Hfrom & _);
    destruct (colo_process_checkpoint_loop_runs n s0 b h0) as (Hsnd & _);
    rewrite Hloop in Hsnd |- *; cbn [snd] in Hsnd
  end.
  cbn [from_dst_file] in Hfrom. rewrite Hfrom.
  apply app_inv_head in Hsnd. rewrite <- Hsnd.
  now skip_history.
Qed.

(** C5 (amended). A run of [colo_process_checkpoint] asks for the return
    path once, as its first call.  If it does not get it, it reports that,
    creates no buffer, runs no transaction, calls [qsb_free] on NULL and
    closes nothing.  If CHECKPOINT_READY is then not received, it reports
    the error, creates no buffer, calls [qsb_free] on NULL and closes the
    return path.  Otherwise it calls [qsb_create] once; if that fails it
    reports it and ends in the same way.  Otherwise its calls are those of
    the setup, then those of the transactions that its loop runs one
    after the other ([transaction_runs]), then the teardown: [qsb_free]
    on the buffer created and the close of the return path.  No run of
    the transaction, in the phase or on its own, creates or frees a
    buffer or asks for or closes a return path, and each one that opens
    the buffer has truncated it to length 0 in the call before and does
    not truncate or open it otherwise.  So [qsb_create] is called once if
    the return path was obtained and CHECKPOINT_READY received and not at
    all otherwise, [qsb_free] is called exactly once, and the return path
    is closed exactly once if it was obtained. *)
Theorem C5_phase_buffer_and_return_path (s : MigrationState) (h : Trace) :
  let setup := phase_setup s in
  let rp := fst (qemu_file_get_return_path (to_dst_file s) h) in
  let ready := recv_ok rp (COLO_MESSAGE_CHECKPOINT_READY cm) (h ++ firstn 1 setup) in
  let created := env_qsb_create E (h ++ firstn 3 setup) = true in
  let s1 := mkMigrationState (to_dst_file s) rp (params_blk s) (params_shared s) in
  let txs := transaction_runs (env_colo_rounds E) s1 (Some colo_buffer) (h ++ setup) in
  let t := emitted (colo_process_checkpoint s) h in
  (rp = None ->
   t = firstn 1 setup
         ++ [ev_error_report "Open QEMUFile from_dst_file failed"]
         ++ phase_teardown None None)
  /\ (rp <> None -> ~ ready ->
      exists e,
        t = firstn 3 setup ++ [ev_error_report_err e] ++ phase_teardown None rp)
  /\ (rp <> None -> ready -> ~ created ->
      t = firstn 4 setup
            ++ [ev_error_report "Failed to allocate colo buffer!"]
            ++ phase_teardown None rp)
  /\ (rp <> None -> ready -> created ->
      t = setup ++ List.concat txs ++ phase_teardown (Some colo_buffer) rp)
  /\ Forall (transaction_trace (Some colo_buffer)) txs
  /\ (List.length txs <= env_colo_rounds E)%nat
  /\ (forall s0 buffer h0,
        transaction_trace buffer (emitted (colo_do_checkpoint_transaction s0 buffer) h0))
  /\ (rp <> None /\ ready -> count is_qsb_create t = 1%nat)
  /\ (~ (rp <> None /\ ready) -> count is_qsb_create t = 0%nat)
  /\ count is_qsb_free t = 1%nat
  /\ count is_get_return_path t = 1%nat
  /\ hd_error t = Some (ev_qemu_file_get_return_path (to_dst_file s))
  /\ (rp <> None -> count is_fclose_return_path t = 1%nat)
  /\ (rp = None -> count is_fclose t = 0%nat).
Proof.
  cbv zeta.
  destruct (colo_process_checkpoint_loop_runs (env_colo_rounds E)
              (mkMigrationState (to_dst_file s)
                 (fst (qemu_file_get_return_path (to_dst_file s) h))
                 (params_blk s) (params_shared s))
              (Some colo_buffer) (h ++ phase_setup s)) as (_ & Hall & Hlen).
  assert (Htx : forall s0 buffer h0,
             transaction_trace buffer
               (emitted (colo_do_checkpoint_transaction s0 buffer) h0)).
  { intros s0 buffer h0.
    destruct (colo_do_checkpoint_transaction_trace s0 buffer h0)
      as (r & s' & t & Hrun & Ht & _).
    now rewrite (proj2 (run_emitted _ _ _ _ Hrun)). }
  destruct (transactions_count_zero _ _ Hall) as (Hc1 & Hc2 & Hc3 & Hc4).
  destruct (colo_process_checkpoint_cases s h)
    as [(Hnone & Ht)
       | (Hsome & Hclose & [(Hno & e & Ht) | (Hyes & [(Hfail & Ht) | (Hbuf & Ht)])])];
    cbv zeta in Ht;
    (split; [intros H1; first [exact Ht | congruence] |]);
    (split; [intros H1 H2; first [exists e; exact Ht | congruence | tauto] |]);
    (split; [intros H1 H2 H3; first [exact Ht | congruence | tauto] |]);
    (split; [intros H1 H2 H3; first [exact Ht | congruence | tauto] |]);
    (split; [exact Hall |]); (split; [exact Hlen |]); (split; [exact Htx |]);
    rewrite Ht; clear Ht.
  - split; [intros (H & _); congruence |]. split; [reflexivity |].
    split; [reflexivity |]. split; [reflexivity |]. split; [reflexivity |].
    split; [congruence | reflexivity].
  - split; [tauto |]. split; [intros _ |].
    2: split; [| split; [| split; [reflexivity | split; [intros _ | congruence]]]].
    all: destruct (fst (qemu_file_get_return_path (to_dst_file s) h)) as [q|] eqn:Hq;
      [| congruence];
      destruct (return_path_some _ _ _ Hq) as (f' & _ & ->); reflexivity.
  - split; [intros _ |]. 2: split; [tauto |].
    2: split; [| split; [| split; [reflexivity | split; [intros _ | congruence]]]].
    all: destruct (fst (qemu_file_get_return_path (to_dst_file s) h)) as [q|] eqn:Hq;
      [| congruence];
      destruct (return_path_some _ _ _ Hq) as (f' & _ & ->); reflexivity.
  - split; [intros _ |]. 2: split; [tauto |].
    2: split; [| split; [| split; [reflexivity | split; [intros _ | congruence]]]].
    all: rewrite !count_app, ?Hc1, ?Hc2, ?Hc3, ?Hc4;
      destruct (fst (qemu_file_get_return_path (to_dst_file s) h)) as [q|] eqn:Hq;
      [| congruence];
      destruct (return_path_some _ _ _ Hq) as (f' & _ & ->); reflexivity.
Qed.

(** ** The iothread lock and the status on the primary side *)

Lemma colo_process_checkpoint_locks s h :
  lock_strict false (emitted (colo_process_checkpoint s) h) = Some false.
Proof.
  destruct (colo_process_checkpoint_run s h)
    as [(_ & ->) | (Hrp & Hsome & [(e & _ & ->) | [(_ & _ & ->) | (_ & _ & t & -> & Hok)]])];
    try rewrite Hrp; try reflexivity;
    destruct (to_dst_file s) as [f|]; cbn [option_map] in *; try congruence;
    try reflexivity.
  destruct Hok as (_ & Hlock & _).
  change (phase_setup {| to_dst_file := Some f; from_dst_file := from_dst_file s;
                         params_blk := params_blk s; params_shared := params_shared s |})
    with (phase_setup s) in *.
  rewrite lock_strict_app. cbn. rewrite lock_strict_app, Hlock. reflexivity.
Qed.

(** X8. [migrate_start_colo_process], entered with the iothread lock held,
    releases it as its first call and takes it again as its last.  In
    between, and in every run of [colo_process_checkpoint] and of
    [colo_do_checkpoint_transaction] on its own, the lock is taken only
    when free and released only when held, and the only calls made while
    it is held are [vm_stop_force_state], [vm_start] and
    [qemu_savevm_state_complete_precopy] (which writes the device state to
    the buffer file), which in turn are made only while it is held.  So
    every command or value sent or received, every flush, open and close,
    and every change of the migration status is made without the lock. *)
Theorem X8_primary_lock_discipline (s : MigrationState) (h : Trace) :
  lock_strict true (emitted (migrate_start_colo_process s) h) = Some true
  /\ lock_strict false (emitted (colo_process_checkpoint s) h) = Some false
  /\ (forall s0 buffer h0,
        lock_strict false (emitted (colo_do_checkpoint_transaction s0 buffer) h0)
        = Some false)
  /\ hd_error (emitted (migrate_start_colo_process s) h)
     = Some ev_qemu_mutex_unlock_iothread
  /\ last (emitted (migrate_start_colo_process s) h) ev_vm_start
     = ev_qemu_mutex_lock_iothread.
Proof.
  rewrite migrate_start_colo_process_emitted.
  split; [| split; [| split; [| split]]].
  - cbn [app lock_strict]. rewrite lock_strict_app, colo_process_checkpoint_locks.
    reflexivity.
  - apply colo_process_checkpoint_locks.
  - intros s0 buffer h0.
    destruct (colo_do_checkpoint_transaction_ok s0 buffer h0)
      as (r & s' & t & Hrun & _ & Hlock & _).
    now rewrite (proj2 (run_emitted _ _ _ _ Hrun)).
  - reflexivity.
  - rewrite !app_assoc. apply last_last.
Qed.

(** X10. On every path [migrate_start_colo_process] calls
    [migrate_set_state] exactly twice: with (ACTIVE, COLO) as its second
    call, directly after releasing the lock, and with (COLO, COMPLETED) as
    the first call of the teardown of the phase, after which it only
    frees the buffer, closes the return path if it has one and takes the
    lock again.  No transaction calls it.  (These are the calls; whether
    one changes the status depends on the status then, which is outside
    [colo.c].) *)
Theorem X10_primary_set_state_calls (s : MigrationState) (h : Trace) :
  let enter := [ev_qemu_mutex_unlock_iothread;
                ev_migrate_set_state MIGRATION_STATUS_ACTIVE MIGRATION_STATUS_COLO] in
  let rp := fst (qemu_file_get_return_path (to_dst_file s) (h ++ enter)) in
  let t := emitted (migrate_start_colo_process s) h in
  (exists body buffer,
     t = enter ++ body ++ phase_teardown buffer rp ++ [ev_qemu_mutex_lock_iothread] /\
     count is_migrate_set_state body = 0%nat)
  /\ filter is_migrate_set_state t
     = [ev_migrate_set_state MIGRATION_STATUS_ACTIVE MIGRATION_STATUS_COLO;
        ev_migrate_set_state MIGRATION_STATUS_COLO MIGRATION_STATUS_COMPLETED]
  /\ (forall s0 buffer h0,
        count is_migrate_set_state
          (emitted (colo_do_checkpoint_transaction s0 buffer) h0) = 0%nat).
Proof.
  cbv zeta. rewrite migrate_start_colo_process_emitted.
  assert (Hbody : exists body buffer,
             emitted (colo_process_checkpoint s)
               (h ++ [ev_qemu_mutex_unlock_iothread;
                      ev_migrate_set_state MIGRATION_STATUS_ACTIVE MIGRATION_STATUS_COLO])
             = body ++ phase_teardown buffer
                         (fst (qemu_file_get_return_path (to_dst_file s)
                                 (h ++ [ev_qemu_mutex_unlock_iothread;
                                        ev_migrate_set_state MIGRATION_STATUS_ACTIVE
                                          MIGRATION_STATUS_COLO]))) /\
             count is_migrate_set_state body = 0%nat).
  { destruct (colo_process_checkpoint_run s
                (h ++ [ev_qemu_mutex_unlock_iothread;
                       ev_migrate_set_state MIGRATION_STATUS_ACTIVE MIGRATION_STATUS_COLO]))
      as [(Hnone & ->) | (_ & _ & [(e & _ & ->) | [(_ & _ & ->) | (_ & _ & t & -> & Hok)]])].
    - rewrite Hnone. eexists _, None. rewrite app_assoc. split; reflexivity.
    - eexists _, None. rewrite app_assoc. split; reflexivity.
    - eexists _, None. rewrite app_assoc. split; reflexivity.
    - destruct Hok as (_ & _ & Hcount).
      exists (phase_setup s ++ t), (Some colo_buffer). rewrite <- app_assoc.
      split; [reflexivity |]. now rewrite count_app, Hcount. }
  destruct Hbody as (body & buffer & -> & Hcount).
  split; [| split].
  - exists body, buffer. rewrite <- !app_assoc. split; [reflexivity | exact Hcount].
  - apply length_zero_iff_nil in Hcount.
    cbn [app filter is_migrate_set_state]. rewrite !filter_app, Hcount.
    unfold phase_teardown. rewrite filter_app.
    destruct (fst (qemu_file_get_return_path _ _)); reflexivity.
  - intros s0 b h0.
    destruct (colo_do_checkpoint_transaction_ok s0 b h0)
      as (r & s' & t & Hrun & _ & _ & Hnone).
    now rewrite (proj2 (run_emitted _ _ _ _ Hrun)).
Qed.

End Colo.

(** ** The claims at concrete inputs *)

(** Settles a condition on a concrete environment by evaluation. *)
Ltac env_ok :=
  repeat split; vm_compute; first [reflexivity | discriminate].


(** C2. Evaluated where the return path fails while the primary waits for
    VMSTATE_RECEIVED, the guest being stopped: the error is reported and
    the guest is not resumed, but the transaction returns 0, the value of
    success. *)
Theorem C2_ack_failure_returns_success :
  let run := colo_do_checkpoint_transaction spec_messages ack_lost_env primary_state
               (Some colo_buffer) in
  fst (result run []) = 0 /\
  count is_vm_stop (emitted run []) = 1%nat /\
  count is_vm_start (emitted run []) = 0%nat /\
  guest_running true (emitted run []) = false /\
  last (removelast (emitted run [])) ev_vm_start
  = ev_error_report_err (error_setg_errno 5 "Can't get COLO command" []).
Proof. vm_compute. repeat split; reflexivity. Qed.

(** The same failure inside the phase: as the transaction returned 0, the
    loop of [colo_process_checkpoint] starts another transaction and
    sends a second CHECKPOINT_REQUEST, the guest still being stopped. *)
Lemma phase_continues_after_ack_failure :
  let t := emitted (colo_process_checkpoint spec_messages ack_lost_phase_env
                      primary_entry_state) [] in
  count (fun e => match e with
                  | ev_qemu_put_be32 _ v =>
                      v =? COLO_MESSAGE_CHECKPOINT_REQUEST spec_messages
                  | _ => false
                  end) t = 2%nat /\
  count is_vm_stop t = 1%nat /\
  count is_vm_start t = 1%nat /\
  guest_running false t = false.
Proof. vm_compute. repeat split; reflexivity. Qed.

Lemma C3_counterexample :
  let run := colo_do_checkpoint_transaction spec_messages request_fails_env
               primary_state (Some colo_buffer) in
  fst (result run []) = -1 /\
  count is_vm_stop (emitted run []) = 0%nat /\
  guest_running true (emitted run []) = true.
Proof. vm_compute. repeat split; reflexivity. Qed.

Lemma C3_failure_leaves_guest_as_at_failing_step_witness :
  let run := colo_do_checkpoint_transaction spec_messages send_fails_env primary_state
               (Some colo_buffer) in
  fst (result run []) < 0 /\
  count is_vm_start (emitted run []) = 0%nat /\
  guest_running true (emitted run []) = false.
Proof.
  cbv zeta.
  assert (H : fst (result (colo_do_checkpoint_transaction spec_messages send_fails_env
                             primary_state (Some colo_buffer)) []) < 0)
    by (vm_compute; reflexivity).
  split; [exact H | split].
  - exact (proj1 (C3_failure_leaves_guest_as_at_failing_step spec_messages
                    send_fails_env primary_state (Some colo_buffer) [] true H)).
  - vm_compute; reflexivity.
Defined.

Lemma C4_responder_order_witness :
  emitted (colo_process_incoming_thread spec_messages one_checkpoint_env
             secondary_entry_state) []
  = responder_prologue spec_messages secondary_entry_state
      ++ responder_steps spec_messages secondary_state
      ++ responder_teardown secondary_state
  /\ emitted (colo_process_incoming_thread spec_messages wrong_request_env
                secondary_entry_state) []
     = responder_prologue spec_messages secondary_entry_state
         ++ get_cmd_events (Some incoming_stream)
         ++ [ev_error_report_err (error_setg "Got unknown COLO command: %d" [ArgD 3])]
         ++ responder_teardown secondary_state.
Proof.
  split.
  - assert (H1 : fst (qemu_file_get_return_path one_checkpoint_env
                        (from_src_file secondary_entry_state)
                        ([] ++ firstn 1 (responder_prologue spec_messages
                                           secondary_entry_state))) <> None)
      by (vm_compute; discriminate).
    assert (H2 : 0 <= env_init_ram_cache one_checkpoint_env
                        ([] ++ firstn 3 (responder_prologue spec_messages
                                           secondary_entry_state)))
      by (vm_compute; discriminate).
    assert (H3 : send_ok spec_messages one_checkpoint_env
                   (fst (qemu_file_get_return_path one_checkpoint_env
                           (from_src_file secondary_entry_state)
                           ([] ++ firstn 1 (responder_prologue spec_messages
                                              secondary_entry_state))))
                   (COLO_MESSAGE_CHECKPOINT_READY spec_messages)
                   ([] ++ firstn 4 (responder_prologue spec_messages
                                      secondary_entry_state)))
      by env_ok.
    destruct (proj2 (proj2 (proj2 (C4_responder_order spec_messages one_checkpoint_env
                                     secondary_entry_state []))) H1 H2 H3)
      as (m & Hm & Hpass & [(-> & Ht) | (Hlt & Hnot & _)]).
    + exact Ht.
    + exfalso. change (m < 1)%nat in Hlt.
      assert (Hz : m = 0%nat) by lia. subst m.
      apply Hnot. env_ok.
  - assert (H1 : fst (qemu_file_get_return_path wrong_request_env
                        (from_src_file secondary_entry_state)
                        ([] ++ firstn 1 (responder_prologue spec_messages
                                           secondary_entry_state))) <> None)
      by (vm_compute; discriminate).
    assert (H2 : 0 <= env_init_ram_cache wrong_request_env
                        ([] ++ firstn 3 (responder_prologue spec_messages
                                           secondary_entry_state)))
      by (vm_compute; discriminate).
    assert (H3 : send_ok spec_messages wrong_request_env
                   (fst (qemu_file_get_return_path wrong_request_env
                           (from_src_file secondary_entry_state)
                           ([] ++ firstn 1 (responder_prologue spec_messages
                                              secondary_entry_state))))
                   (COLO_MESSAGE_CHECKPOINT_READY spec_messages)
                   ([] ++ firstn 4 (responder_prologue spec_messages
                                      secondary_entry_state)))
      by env_ok.
    destruct (proj2 (proj2 (proj2 (C4_responder_order spec_messages wrong_request_env
                                     secondary_entry_state []))) H1 H2 H3)
      as (m & Hm & Hpass & [(-> & Ht) | (Hlt & Hnot & n & e & Hfail & Ht)]).
    + exfalso.
      assert (H0 : (0 < env_colo_rounds wrong_request_env)%nat) by (vm_compute; lia).
      destruct (Hpass 0%nat H0) as ((_ & _ & Hreq) & _).
      vm_compute in Hreq. discriminate.
    + change (m < 1)%nat in Hlt.
      assert (Hz : m = 0%nat) by lia. subst m.
      destruct Hfail as [(_ & -> & He) | ((_ & _ & Hreq) & _)].
      * rewrite Ht, He; [reflexivity | vm_compute; discriminate | vm_compute; reflexivity].
      * vm_compute in Hreq. discriminate.
Defined.

Lemma C5_phase_buffer_and_return_path_witness :
  let t := emitted (colo_process_checkpoint spec_messages ack_lost_phase_env
                      primary_entry_state) [] in
  let txs := transaction_runs spec_messages ack_lost_phase_env 2 primary_state
               (Some colo_buffer) (phase_setup primary_entry_state) in
  t = phase_setup primary_entry_state ++ List.concat txs
        ++ phase_teardown (Some colo_buffer) (Some (return_path outgoing_stream))
  /\ List.length txs = 2%nat
  /\ count is_qsb_create t = 1%nat
  /\ count is_qsb_free t = 1%nat
  /\ count is_qsb_set_length t = 1%nat
  /\ count is_fclose_return_path t = 1%nat.
Proof.
  cbv zeta.
  pose proof (C5_phase_buffer_and_return_path spec_messages ack_lost_phase_env
                primary_entry_state [])
    as (_ & _ & _ & Hran & _ & _ & _ & Hcreate & _ & Hfree & _ & _ & Hclose & _).
  cbv zeta in Hran, Hcreate, Hclose.
  assert (H1 : fst (qemu_file_get_return_path ack_lost_phase_env
                      (to_dst_file primary_entry_state) []) <> None)
    by (vm_compute; discriminate).
  assert (H2 : recv_ok spec_messages ack_lost_phase_env
                 (fst (qemu_file_get_return_path ack_lost_phase_env
                         (to_dst_file primary_entry_state) []))
                 (COLO_MESSAGE_CHECKPOINT_READY spec_messages)
                 ([] ++ firstn 1 (phase_setup primary_entry_state)))
    by env_ok.
  assert (H3 : env_qsb_create ack_lost_phase_env
                 ([] ++ firstn 3 (phase_setup primary_entry_state)) = true)
    by reflexivity.
  split; [exact (Hran H1 H2 H3) |].
  split; [vm_compute; reflexivity |].
  split; [exact (Hcreate (conj H1 H2)) |].
  split; [exact Hfree |].
  split; [rewrite (Hran H1 H2 H3); vm_compute; reflexivity |].
  exact (Hclose H1).
Defined.

Lemma C5_counterexample :
  let no_path := emitted (colo_process_checkpoint spec_messages no_return_path_env
                            primary_entry_state) [] in
  let no_send := emitted (colo_process_checkpoint spec_messages first_request_fails_env
                            primary_entry_state) [] in
  (count is_qsb_create no_path = 0%nat /\
   count is_fclose_return_path no_path = 0%nat /\
   count is_qsb_free no_path = 1%nat)
  /\ (In (ev_qemu_put_be32 (Some outgoing_stream) 0) no_send /\
      count is_qsb_set_length no_send = 0%nat).
Proof. vm_compute. repeat split; try reflexivity. tauto. Qed.

Lemma C6_counterexample :
  let t := emitted (colo_process_incoming_thread spec_messages no_return_path_env
                      secondary_entry_state) [] in
  count is_fclose t = 0%nat /\
  count is_release_ram_cache t = 1%nat /\
  count is_exit_colo t = 1%nat.
Proof. vm_compute. repeat split; reflexivity. Qed.

Lemma C7_range_rejection_witness :
  (COLO_MESSAGE__MAX spec_messages <= 7 /\
   emitted (colo_put_cmd spec_messages happy_env (Some outgoing_stream) 7) [] = [])
  /\ (COLO_MESSAGE__MAX spec_messages <= decoded (scripted [9] [] true true true 0 0 0) [] /\
      exists e,
        colo_get_cmd spec_messages (scripted [9] [] true true true 0 0 0)
          (Some incoming_stream) []
        = (9, Some e, get_cmd_events (Some incoming_stream)) /\
        channel_error e = Some InvalidCommand).
Proof.
  assert (H1 : COLO_MESSAGE__MAX spec_messages <= 7) by (vm_compute; discriminate).
  assert (H2 : 0 <= env_file_error (scripted [9] [] true true true 0 0 0)
                      ([] ++ [ev_qemu_get_be32 (Some incoming_stream)]))
    by (vm_compute; discriminate).
  assert (H3 : COLO_MESSAGE__MAX spec_messages
               <= decoded (scripted [9] [] true true true 0 0 0) [])
    by (vm_compute; discriminate).
  split; [split | split]; [exact H1 | | exact H3 |].
  - destruct (proj1 (C7_range_rejection spec_messages happy_env
                       (Some outgoing_stream) 7 []) H1) as (e & _ & He & _).
    exact He.
  - destruct (proj1 (proj2 (C7_range_rejection spec_messages
                              (scripted [9] [] true true true 0 0 0)
                              (Some incoming_stream) 0 [])) H2 H3)
      as (e & Hrun & _ & Hkind).
    exists e. split; [exact Hrun | exact Hkind].
Defined.

(** C8. Evaluated where CHECKPOINT_REPLY (1) is expected and the peer sent
    VMSTATE_SEND (3): the call fails with a mismatch error, built from the
    expected command first and the received one second, so that its text
    names 1 as the unexpected command and 3 as the expected one. *)
Theorem C8_mismatch_report_swapped :
  let expect_cmd := COLO_MESSAGE_CHECKPOINT_REPLY spec_messages in
  let run := colo_get_check_cmd spec_messages mismatch_env
               (Some (return_path outgoing_stream)) expect_cmd in
  expect_cmd = 1 /\
  decoded mismatch_env [] = 3 /\
  exists e,
    result run [] = Some e /\
    channel_error e = Some ProtocolMismatch /\
    err_args e = [ArgD 1; ArgD 3] /\
    error_message e = "Unexpected COLO command 1, expected 3"%string.
Proof.
  cbv zeta. split; [reflexivity |]. split; [vm_compute; reflexivity |].
  eexists. split; [vm_compute; reflexivity |].
  repeat split.
Qed.

Lemma C9_assert_request_never_fails_witness :
  snd (fst (colo_wait_handle_cmd spec_messages one_checkpoint_env
              (Some incoming_stream) [])) = None /\
  fst (fst (colo_wait_handle_cmd spec_messages one_checkpoint_env
              (Some incoming_stream) [])) = Some 1.
Proof.
  assert (H : snd (fst (colo_wait_handle_cmd spec_messages one_checkpoint_env
                          (Some incoming_stream) [])) = None)
    by (vm_compute; reflexivity).
  split; [exact H |].
  exact (proj1 (C9_assert_request_never_fails spec_messages one_checkpoint_env
                  (Some incoming_stream) secondary_state []) H).
Defined.


Lemma X16_secondary_reports_every_failure_witness :
  count is_report
    (emitted (colo_process_incoming_thread spec_messages ready_fails_env
                secondary_entry_state) []) = 1%nat.
Proof.
  apply (proj2 (X16_secondary_reports_every_failure spec_messages ready_fails_env
                  secondary_entry_state [])).
  intros ((_ & _ & (_ & Hsend)) & _).
  vm_compute in Hsend. apply Hsend. reflexivity.
Defined.
